(** * paczkomat_finder_gpx: a shallow embedding of [main.py]

    The program reads a GPX track, samples it, asks the InPost locator
    API for parcel lockers near every sampled point, removes duplicate
    lockers and draws a folium map.

    Modelling choices, stated once:
    - a Python [float] is the rational number it stands for ([Q]);
      [+], [-], [>=], [round], [int] and fixed-point formatting are
      written out below on [Q]; the product [radius_km * 1000], whose
      rounding decides the value sent to the locator, is rounded to the
      nearest double ([to_double]); the floats without a rational
      value (-0.0, infinities, NaN) are not represented;
    - [geopy.distance.geodesic(a, b).km] is a parameter [geodesic] of the
      sampler; concrete runs use [equator_km], the length of an arc of
      the WGS-84 equator, on tracks whose points have latitude 0;
    - [gpxpy.parse] and the file system are outside the model: a pass
      receives the parsed [GPX] object;
    - [requests.get] is a parameter [http] mapping a request to its
      outcome; [print] appends a line to the standard output carried by
      the [Py] monad; [time.sleep] has no effect on any value. *)

From Stdlib Require Import QArith Qabs Qround Qpower Qfield ZArith Lia Lqa.
From Stdlib Require Import Ascii String Sorted.
From stdpp Require Import base list gmap strings pretty.

Local Open Scope Z_scope.
Local Open Scope Q_scope.

(** ** Numbers *)

(** [round(x)] with one argument: the nearest integer, ties to even. *)
Definition py_round (x : Q) : Z :=
  let f := Qfloor x in
  match Qcompare (x - inject_Z f) (1 # 2) with
  | Lt => f
  | Gt => (f + 1)%Z
  | Eq => if Z.even f then f else (f + 1)%Z
  end.

(** [int(x)]: truncation towards zero. *)
Definition py_int (x : Q) : Z := Z.quot (Qnum x) (Z.pos (Qden x)).

(** [x >= y] on floats. *)
Definition py_ge (x y : Q) : bool := Qle_bool y x.

(** ** Doubles *)

Definition pow2 (e : Z) : Q := Qpower 2 e.

(** The integer part of the binary logarithm of a positive rational:
    the difference of the bit lengths of numerator and denominator, or
    one less. *)
Definition binade (x : Q) : Z :=
  let k := (Z.log2 (Qnum x) - Z.log2 (Z.pos (Qden x)))%Z in
  if Qle_bool (pow2 k) x then k else (k - 1)%Z.

(** Exponent of the last of the 53 significant bits a double keeps of
    [x]; never below that of the smallest subnormal. *)
Definition ulp_exponent (x : Q) : Z := Z.max (binade x - 52) (-1074).

(** The result a float operation delivers when its exact result is
    [x]: [x] rounded to the nearest double, ties to the even
    significand. Results beyond the largest double, which the format
    turns into infinities, are outside the model. *)
Definition to_double (x : Q) : Q :=
  let e := ulp_exponent (Qabs x) in
  inject_Z (py_round (x / pow2 e)) * pow2 e.




(** ** Track data: [gpx.tracks[i].segments[j].points[k]] *)

Record GPXTrackPoint := { latitude : Q; longitude : Q }.
Record GPXTrackSegment := { points : list GPXTrackPoint }.
Record GPXTrack := { segments : list GPXTrackSegment }.
Record GPX := { tracks : list GPXTrack }.

Definition LatLon : Type := Q * Q.
Definition DistanceMarker : Type := Q * Q * Z.

Definition latlon (p : GPXTrackPoint) : LatLon := (latitude p, longitude p).

(** The two nested [for] loops that [extend] [all_points]. *)
Definition all_points (gpx : GPX) : list GPXTrackPoint :=
  fold_left
    (fun acc track =>
       fold_left (fun acc segment => acc ++ points segment) (segments track) acc)
    (tracks gpx) [].

(** A file with one track of one segment. *)
Definition single_segment (pts : list GPXTrackPoint) : GPX :=
  {| tracks := [ {| segments := [ {| points := pts |} ] |} ] |}.

(** Arc of the equator, in km: 6378.137 km times the longitude
    difference in radians, 111.319490793 km per degree. *)
Definition equator_km (a b : LatLon) : Q :=
  Qabs (snd b - snd a) * (111319490793 # 1000000000).

(** ** Distance sampler *)

Section Sampler.

Variable geodesic : LatLon -> LatLon -> Q.

(** *** Marker pass: [get_distance_markers] *)

Record marker_state := {
  markers : list DistanceMarker;
  total_distance : Q;
  last_point : GPXTrackPoint
}.

(** One iteration of [for point in all_points[1:]]. The test
    [len(markers) == 0 or total_distance - markers[-1][2] >= interval_km]
    reads the last marker only when there is one. *)
Definition marker_step (interval_km : Q) (st : marker_state)
    (point : GPXTrackPoint) : marker_state :=
  let segment_distance := geodesic (latlon (last_point st)) (latlon point) in
  let total := total_distance st + segment_distance in
  let accept :=
    match last (markers st) with
    | None => true
    | Some m => py_ge (total - inject_Z (snd m)) interval_km
    end in
  {| markers :=
       if accept
       then markers st ++ [(latitude point, longitude point, py_round total)]
       else markers st;
     total_distance := total;
     last_point := point |}.

Definition marker_loop (interval_km : Q) (p0 : GPXTrackPoint)
    (rest : list GPXTrackPoint) : marker_state :=
  fold_left (marker_step interval_km) rest
    {| markers := []; total_distance := 0; last_point := p0 |}.

(** From [if not all_points] to [return markers]. *)
Definition markers_of_points (pts : list GPXTrackPoint) (interval_km : Q)
    : list DistanceMarker :=
  match pts with
  | [] => []
  | p0 :: rest => markers (marker_loop interval_km p0 rest)
  end.

Definition get_distance_markers (gpx : GPX) (interval_km : Q)
    : list DistanceMarker :=
  markers_of_points (all_points gpx) interval_km.

(** *** Coarse pass: [parse_gpx_points_every_n_km] *)

Record coarse_state := {
  sampled_points : list GPXTrackPoint;
  last_added : GPXTrackPoint;
  distance_accumulator : Q
}.

(** One iteration: the distance is measured from [last_added], which
    changes only when a point is appended. *)
Definition coarse_step (interval_km : Q) (st : coarse_state)
    (point : GPXTrackPoint) : coarse_state :=
  let segment_distance := geodesic (latlon (last_added st)) (latlon point) in
  let acc := distance_accumulator st + segment_distance in
  if py_ge acc interval_km
  then {| sampled_points := sampled_points st ++ [point];
          last_added := point;
          distance_accumulator := 0 |}
  else {| sampled_points := sampled_points st;
          last_added := last_added st;
          distance_accumulator := acc |}.

Definition coarse_loop (interval_km : Q) (p0 : GPXTrackPoint)
    (rest : list GPXTrackPoint) : coarse_state :=
  fold_left (coarse_step interval_km) rest
    {| sampled_points := [p0]; last_added := p0; distance_accumulator := 0 |}.

(** From [if not all_points] to the final list comprehension. *)
Definition sample_of_points (pts : list GPXTrackPoint) (interval_km : Q)
    : list LatLon :=
  match pts with
  | [] => []
  | p0 :: rest => map latlon (sampled_points (coarse_loop interval_km p0 rest))
  end.

Definition parse_gpx_points_every_n_km (gpx : GPX) (interval_km : Q)
    : list LatLon :=
  sample_of_points (all_points gpx) interval_km.

(** *** Reference quantities used to state the properties *)

(** Length of the track up to its last point: the geodesic distances
    between consecutive raw points, added from the start in order. *)
Fixpoint path_km_from (acc : Q) (prev : GPXTrackPoint)
    (rest : list GPXTrackPoint) : Q :=
  match rest with
  | [] => acc
  | p :: ps => path_km_from (acc + geodesic (latlon prev) (latlon p)) p ps
  end.

Definition path_km (pts : list GPXTrackPoint) : Q :=
  match pts with
  | [] => 0
  | p0 :: rest => path_km_from 0 p0 rest
  end.

End Sampler.

(** What every iteration of the marker loop preserves when distances
    are not negative: the recorded distances are in order and none
    exceeds the rounded running total. *)
Definition marker_order_inv (st : marker_state) : Prop :=
  StronglySorted Z.le (map snd (markers st))
  /\ Forall (fun d => (d <= py_round (total_distance st))%Z)
            (map snd (markers st)).

(** ** Exceptions and standard output *)

Inductive PyException := AttributeError | IndexError.

Inductive PyResult (A : Type) :=
| Returned (a : A)
| Raised (e : PyException).
Arguments Returned {A} a.
Arguments Raised {A} e.

(** A computation reads the lines printed so far and gives them back,
    extended, with a value or the exception that ended it. *)
Definition Py (A : Type) : Type := list string -> list string * PyResult A.

Definition ret {A} (a : A) : Py A := fun out => (out, Returned a).

Definition raise {A} (e : PyException) : Py A := fun out => (out, Raised e).

Definition bind {A B} (m : Py A) (k : A -> Py B) : Py B :=
  fun out =>
    match m out with
    | (out', Returned a) => k a out'
    | (out', Raised e) => (out', Raised e)
    end.

Definition print (line : string) : Py unit :=
  fun out => (out ++ [line], Returned tt).

Notation "x <- m ;; k" := (bind m (fun x => k))
  (at level 100, m at next level, right associativity).
Notation "m ;;; k" := (bind m (fun _ => k))
  (at level 100, right associativity).

(** A run from an empty standard output. *)
Definition run {A} (m : Py A) : list string * PyResult A := m [].

(** ** Fixed-point formatting: [f"{x:.6f}"] *)

Definition digit_char (d : Z) : ascii := ascii_of_nat (48 + Z.to_nat d).

(** The last [width] decimal digits of [n], padded with zeros. *)
Fixpoint digits_fixed (width : nat) (n : Z) : string :=
  match width with
  | O => EmptyString
  | S w => digits_fixed w (n / 10) +:+ String (digit_char (n mod 10)) EmptyString
  end.

(** [format(x, ".<prec>f")]: [x] rounded to [prec] decimals, ties to
    even, with a minus sign for negative [x]. *)
Definition format_f (prec : nat) (x : Q) : string :=
  let scale := (10 ^ Z.of_nat prec)%Z in
  let scaled := py_round (Qabs x * inject_Z scale) in
  let sign := if Qlt_le_dec x 0 then "-" else "" in
  let fraction :=
    match prec with
    | O => ""
    | S _ => "." +:+ digits_fixed prec (scaled mod scale)
    end in
  sign +:+ pretty (scaled / scale)%Z +:+ fraction.

Definition is_digit (c : ascii) : bool :=
  (48 <=? nat_of_ascii c)%nat && (nat_of_ascii c <=? 57)%nat.

Fixpoint all_digits (s : string) : bool :=
  match s with
  | EmptyString => true
  | String c s' => is_digit c && all_digits s'
  end.

(** A decimal numeral with exactly [k] decimals: an optional minus
    sign, at least one digit, a point and [k] digits. *)
Definition has_decimals (k : nat) (s : string) : Prop :=
  exists sign whole frac,
    s = sign +:+ whole +:+ "." +:+ frac
    /\ (sign = "" \/ sign = "-")
    /\ whole <> "" /\ all_digits whole = true
    /\ all_digits frac = true /\ String.length frac = k.





(** ** Locker fetcher *)

(** A record of the [items] array: [locker["name"]],
    [locker["location"]["latitude"]], [locker["location"]["longitude"]]
    and the optional [locker["location_description"]]. *)
Record Locker := {
  name : string;
  location : LatLon;
  location_description : option string
}.

(** What [get_nearby_parcel_lockers] hands to [main]: the decoded JSON
    object of a 200 response, or the list literal [[]]. *)
Inductive PyValue :=
| PyDict (entries : gmap string (list Locker))
| PyList (elements : list Locker).

Inductive ParamValue := PStr (s : string) | PInt (n : Z).

Record Request := {
  url : string;
  params : gmap string ParamValue;
  headers : gmap string string
}.

(** Outcome of [requests.get]: a response with [status_code], [text]
    and the value [json()] decodes from it; a response whose body is
    not JSON, on which [json()] raises
    [requests.exceptions.JSONDecodeError], a [RequestException] since
    requests 2.27, with the given message; or a
    [requests.RequestException] raised by the transport (timeout,
    connection error). *)
Inductive Response :=
| HttpResponse (status_code : Z) (text : string) (json : PyValue)
| HttpResponseNotJson (status_code : Z) (text : string) (error : string)
| RequestException (message : string).

Definition TRAIL_CHUNK : Q := 500.
Definition SEARCH_RADIUS_KM : Q := 2.
Definition DISTANCE_MARKERS_EACH : Q := 10.

(** The [url], [params] and [headers] built before the [try]. The
    product [radius_km * 1000] is a float product; [main] passes the
    integer 2, whose product 2000 is the same in integer and in float
    arithmetic. *)
Definition locker_request (lat lon radius_km : Q) (token : string) : Request :=
  let relative_point := format_f 6 lat +:+ "," +:+ format_f 6 lon in
  {| url := "https://api-shipx-pl.easypack24.net/v1/points";
     params :=
       <["type" := PStr "parcel_locker"]>
       (<["relative_point" := PStr relative_point]>
       (<["max_distance" := PInt (py_int (to_double (radius_km * 1000)))]>
       (<["sort" := PStr "distance"]> ∅)));
     headers :=
       <["Authorization" := "Bearer " +:+ token]>
       (<["Accept" := "application/json"]> ∅) |}.

(** A query failed: the status is not 200, or the transport raised. *)
Definition failed (r : Response) : Prop :=
  match r with
  | HttpResponse status_code _ _ => status_code <> 200%Z
  | HttpResponseNotJson status_code _ _ => status_code <> 200%Z
  | RequestException _ => True
  end.

(** [lockers.get("items", [])]: a dict answers, a list has no [get]. *)
Definition get_items (lockers : PyValue) : Py (list Locker) :=
  match lockers with
  | PyDict entries => ret (default [] (entries !! "items"))
  | PyList _ => raise AttributeError
  end.

(** ** Deduplicator: the [seen] / [unique_lockers] loop of [main] *)

Definition unique_step (st : gset string * list Locker) (locker : Locker)
    : gset string * list Locker :=
  let '(seen, unique_lockers) := st in
  if decide (name locker ∈ seen)
  then (seen, unique_lockers)
  else ({[name locker]} ∪ seen, unique_lockers ++ [locker]).

Definition unique_lockers (all_lockers : list Locker) : list Locker :=
  snd (fold_left unique_step all_lockers (∅, [])).

(** The first record of a list that carries a given name, if any. *)
Definition first_with_name (n : string) (lockers : list Locker) : option Locker :=
  List.find (fun locker => String.eqb (name locker) n) lockers.

(** ** Map renderer *)

Inductive Icon :=
| FoliumIcon (color icon prefix : string)
| DivIcon (html : string).

Inductive MapChild :=
| PolyLine (locations : list LatLon) (color : string) (weight : Z)
| Marker (at_location : LatLon) (popup : option string) (icon : Icon).

Record FoliumMap := {
  map_location : LatLon;
  zoom_start : Z;
  children : list MapChild
}.

Definition dquote : string := String (ascii_of_nat 34) EmptyString.

Definition locker_marker (locker : Locker) : MapChild :=
  Marker (location locker)
    (Some (name locker +:+ "<br>" +:+ default "" (location_description locker)))
    (FoliumIcon "green" "inbox" "fa").

Definition distance_label (m : DistanceMarker) : MapChild :=
  let '(lat, lon, distance_km) := m in
  Marker (lat, lon) None
    (DivIcon ("<div style=" +:+ dquote +:+ "font-size: 10pt; color: black;"
              +:+ dquote +:+ ">" +:+ pretty distance_km +:+ " km</div>")).

(** [route_points[len(route_points) // 2]] raises [IndexError] on an
    empty list; everything after it adds children to the map. *)
Definition create_map_with_lockers (route_points : list LatLon)
    (lockers : list Locker) (distance_markers : list DistanceMarker)
    : Py FoliumMap :=
  match route_points !! (length route_points / 2)%nat with
  | None => raise IndexError
  | Some center_latlon =>
      ret {| map_location := center_latlon;
             zoom_start := 10;
             children :=
               PolyLine route_points "blue" 3
               :: map locker_marker lockers
               ++ map distance_label distance_markers |}
  end.

(** ** The pipeline *)

Section Pipeline.

Variable geodesic : LatLon -> LatLon -> Q.
Variable http : Request -> Response.

(** The [try] block: a 200 response returns its decoded body, any
    other status and any [RequestException] print and return [[]];
    [json()] is called on a 200 response only, and its failure is a
    [RequestException] like the others. *)
Definition get_nearby_parcel_lockers (lat lon radius_km : Q) (token : string)
    : Py PyValue :=
  match http (locker_request lat lon radius_km token) with
  | HttpResponse status_code text data =>
      print ("[DEBUG] Response status: " +:+ pretty status_code) ;;;
      if (status_code =? 200)%Z
      then ret data
      else
        print ("[ERROR] Failed with status code " +:+ pretty status_code) ;;;
        print ("[ERROR] Response content: " +:+ text) ;;;
        ret (PyList [])
  | HttpResponseNotJson status_code text error =>
      print ("[DEBUG] Response status: " +:+ pretty status_code) ;;;
      if (status_code =? 200)%Z
      then
        print ("[EXCEPTION] Request error: " +:+ error) ;;;
        ret (PyList [])
      else
        print ("[ERROR] Failed with status code " +:+ pretty status_code) ;;;
        print ("[ERROR] Response content: " +:+ text) ;;;
        ret (PyList [])
  | RequestException message =>
      print ("[EXCEPTION] Request error: " +:+ message) ;;;
      ret (PyList [])
  end.

(** Body of [for index, (lat, lon) in enumerate(route_points)]. *)
Definition fetch_point (token : string) (total : nat)
    (all_lockers : list Locker) (indexed : nat * LatLon)
    : Py (list Locker) :=
  let '(index, (lat, lon)) := indexed in
  print ("[INFO] Processing point " +:+ pretty (index + 1)%nat +:+ "/"
         +:+ pretty total +:+ " at (" +:+ format_f 5 lat +:+ ", "
         +:+ format_f 5 lon +:+ ")") ;;;
  lockers <- get_nearby_parcel_lockers lat lon SEARCH_RADIUS_KM token ;;
  items <- get_items lockers ;;
  ret (all_lockers ++ items).

Fixpoint fetch_loop (token : string) (total : nat)
    (all_lockers : list Locker) (todo : list (nat * LatLon))
    : Py (list Locker) :=
  match todo with
  | [] => ret all_lockers
  | indexed :: todo' =>
      all_lockers' <- fetch_point token total all_lockers indexed ;;
      fetch_loop token total all_lockers' todo'
  end.

Definition fetch_all (token : string) (route_points : list LatLon)
    : Py (list Locker) :=
  fetch_loop token (length route_points) [] (imap pair route_points).

(** [main], from the parsed track and the token read from the token
    file. The line that prints the raw record list and the final
    confirmation after [save] are not part of the model. *)
Definition main (token : string) (gpx : GPX) : Py FoliumMap :=
  print "[1/4] Loading API token..." ;;;
  print "[2/4] Parsing GPX route..." ;;;
  let route_points := parse_gpx_points_every_n_km geodesic gpx TRAIL_CHUNK in
  print (pretty (length route_points)) ;;;
  print "[3/4] Fetching parcel lockers from InPost..." ;;;
  all_lockers <- fetch_all token route_points ;;
  print ("   => Found " +:+ pretty (length all_lockers)
         +:+ " lockers, filtering unique ones...") ;;;
  let unique := unique_lockers all_lockers in
  print "[INFO] Generating distance markers..." ;;;
  let distance_markers := get_distance_markers geodesic gpx DISTANCE_MARKERS_EACH in
  print ("[4/4] Creating map with " +:+ pretty (length unique)
         +:+ " unique parcel lockers...") ;;;
  create_map_with_lockers route_points unique distance_markers.

End Pipeline.

(** ** The passes as the specification words them

    Two definitions that follow the specification's sentences instead
    of the code; they are compared with the passes above. *)

Section SamplerAsSpecified.

Variable geodesic : LatLon -> LatLon -> Q.

(** Marker pass, specification wording: a point is accepted when its
    total distance since the start minus the total distance at which
    the last marker was accepted (zero before any marker) reaches the
    interval. *)
Record spec_marker_state := {
  spec_markers : list DistanceMarker;
  spec_total : Q;
  spec_accepted_at : Q;
  spec_previous : GPXTrackPoint
}.

Definition spec_marker_step (interval_km : Q) (st : spec_marker_state)
    (point : GPXTrackPoint) : spec_marker_state :=
  let total := spec_total st + geodesic (latlon (spec_previous st)) (latlon point) in
  if py_ge (total - spec_accepted_at st) interval_km
  then {| spec_markers :=
            spec_markers st ++ [(latitude point, longitude point, py_round total)];
          spec_total := total;
          spec_accepted_at := total;
          spec_previous := point |}
  else {| spec_markers := spec_markers st;
          spec_total := total;
          spec_accepted_at := spec_accepted_at st;
          spec_previous := point |}.

Definition spec_markers_of_points (pts : list GPXTrackPoint) (interval_km : Q)
    : list DistanceMarker :=
  match pts with
  | [] => []
  | p0 :: rest =>
      spec_markers
        (fold_left (spec_marker_step interval_km) rest
           {| spec_markers := []; spec_total := 0;
              spec_accepted_at := 0; spec_previous := p0 |})
  end.

(** Coarse pass, specification wording: the accumulator receives the
    distance between consecutive raw points. *)
Record spec_coarse_state := {
  spec_sampled : list GPXTrackPoint;
  spec_previous_raw : GPXTrackPoint;
  spec_accumulator : Q
}.

Definition spec_coarse_step (interval_km : Q) (st : spec_coarse_state)
    (point : GPXTrackPoint) : spec_coarse_state :=
  let acc := spec_accumulator st
             + geodesic (latlon (spec_previous_raw st)) (latlon point) in
  if py_ge acc interval_km
  then {| spec_sampled := spec_sampled st ++ [point];
          spec_previous_raw := point;
          spec_accumulator := 0 |}
  else {| spec_sampled := spec_sampled st;
          spec_previous_raw := point;
          spec_accumulator := acc |}.

Definition spec_sample_of_points (pts : list GPXTrackPoint) (interval_km : Q)
    : list LatLon :=
  match pts with
  | [] => []
  | p0 :: rest =>
      map latlon
        (spec_sampled
           (fold_left (spec_coarse_step interval_km) rest
              {| spec_sampled := [p0]; spec_previous_raw := p0;
                 spec_accumulator := 0 |}))
  end.

End SamplerAsSpecified.

(** ** Test data *)

(** A point of the equator. *)
Definition on_equator (lon : Q) : GPXTrackPoint :=
  {| latitude := 0; longitude := lon |}.

(** Three points about 15 km apart. *)
Definition track_15km : GPX :=
  single_segment [on_equator 0; on_equator 0.135; on_equator 0.27].

(** Three points about 5.57 km apart. *)
Definition track_5km : GPX :=
  single_segment [on_equator 0; on_equator 0.05; on_equator 0.10].

(** Points at about 10.40 km and 20.20 km from the start. *)
Definition track_10_20 : GPX :=
  single_segment [on_equator 0; on_equator 0.0934; on_equator 0.1815].

(** Points at about 0.11 km and 0.22 km from the start. *)
Definition track_short : GPX :=
  single_segment [on_equator 0; on_equator 0.001; on_equator 0.002].

(** Points at about 0.11 km and 10.05 km from the start. *)
Definition track_0_10 : GPX :=
  single_segment [on_equator 0; on_equator 0.001; on_equator 0.0903].

(** Two points about 556.6 km apart. *)
Definition track_556km : GPX :=
  single_segment [on_equator 0; on_equator 5].

Definition empty_gpx : GPX := {| tracks := [] |}.

Definition locker_A1 : Locker :=
  {| name := "Locker-A"; location := (50, 19);
     location_description := Some "first" |}.
Definition locker_A2 : Locker :=
  {| name := "Locker-A"; location := (51, 20);
     location_description := None |}.
Definition locker_B : Locker :=
  {| name := "Locker-B"; location := (52, 21);
     location_description := None |}.

Definition items_body (items : list Locker) : PyValue :=
  PyDict (<["items" := items]> ∅).

(** A locator that answers 500 to every query. *)
Definition http_500 (_ : Request) : Response :=
  HttpResponse 500 "Internal Server Error" (PyDict ∅).

(** A locator that answers 200 with a body that is not JSON. *)
Definition http_not_json (_ : Request) : Response :=
  HttpResponseNotJson 200 "<html></html>"
    "Expecting value: line 1 column 1 (char 0)".

(** A locator that cannot be reached. *)
Definition http_down (_ : Request) : Response :=
  RequestException "Connection refused".

(** A locator that answers the query at longitude 0 and fails with 500
    on every other one. *)
Definition http_first_only (r : Request) : Response :=
  match params r !! "relative_point" with
  | Some (PStr "0.000000,0.000000") => HttpResponse 200 "" (items_body [locker_A1])
  | _ => HttpResponse 500 "Internal Server Error" (PyDict ∅)
  end.

(** A locator that answers every query with the same two records. *)
Definition http_ok (_ : Request) : Response :=
  HttpResponse 200 "" (items_body [locker_A1; locker_B]).

(** ** Token file: [load_token_from_file] *)

(** A Python [str] as the sequence of its code points. *)
Definition py_str : Type := list N.

(** [c.isspace()] for one character: the code points Python treats as
    white space. *)
Definition py_isspace (c : N) : bool :=
  ((9 <=? c) && (c <=? 13) || (28 <=? c) && (c <=? 32)
   || (c =? 133) || (c =? 160) || (c =? 5760)
   || (8192 <=? c) && (c <=? 8202)
   || (c =? 8232) || (c =? 8233) || (c =? 8239) || (c =? 8287)
   || (c =? 12288))%N.

Fixpoint py_lstrip (s : py_str) : py_str :=
  match s with
  | [] => []
  | c :: s' => if py_isspace c then py_lstrip s' else s
  end.

Definition py_rstrip (s : py_str) : py_str := rev (py_lstrip (rev s)).

(** [s.strip()] without arguments. *)
Definition py_strip (s : py_str) : py_str := py_rstrip (py_lstrip s).

(** [file.read().strip()], from the text that [read] returns. *)
Definition load_token_from_file (content : py_str) : py_str := py_strip content.

(** ** Quantities used to state further properties *)

(** The value the coarse accumulator reaches when no point after [a]
    has been accepted: the distances from [a] to each of the points
    [rest], added in order. *)
Definition anchored_km (geodesic : LatLon -> LatLon -> Q) (a : GPXTrackPoint)
    (rest : list GPXTrackPoint) : Q :=
  fold_left (fun acc q => acc + geodesic (latlon a) (latlon q)) rest 0.

(** Every point is at least [interval_km] away from the one before. *)
Fixpoint spaced_from (geodesic : LatLon -> LatLon -> Q) (interval_km : Q)
    (prev : GPXTrackPoint) (rest : list GPXTrackPoint) : Prop :=
  match rest with
  | [] => True
  | p :: ps =>
      interval_km <= geodesic (latlon prev) (latlon p)
      /\ spaced_from geodesic interval_km p ps
  end.

(** A 200 answer whose body is a JSON object. *)
Definition query_ok (r : Response) : Prop :=
  exists text entries, r = HttpResponse 200 text (PyDict entries).

(** The records such an answer holds under [items]. *)
Definition items_of (r : Response) : list Locker :=
  match r with
  | HttpResponse _ _ (PyDict entries) => default [] (entries !! "items")
  | _ => []
  end.

(** The answer to the query [main] sends for the route point [p]. *)
Definition response_at (http : Request -> Response) (token : string)
    (p : LatLon) : Response :=
  http (locker_request (fst p) (snd p) SEARCH_RADIUS_KM token).

(** The doubles that the literals 2.3 and 1.001 denote. *)
Definition double_2_3 : Q := 2589569785738035 # 1125899906842624.
Definition double_1_001 : Q := 2254051613498933 # 2251799813685248.

(** The token as found in a file that ends with a newline. *)
Definition token_file_text : py_str := [32; 97; 98; 99; 10]%N.

(** * Properties *)

(** ** Rounding *)

Lemma py_round_cases (x : Q) :
  (py_round x = Qfloor x /\ x - inject_Z (Qfloor x) <= 1 # 2) \/
  (py_round x = (Qfloor x + 1)%Z /\ 1 # 2 <= x - inject_Z (Qfloor x)).
Proof.
  unfold py_round.
  destruct (Qcompare_spec (x - inject_Z (Qfloor x)) (1 # 2)) as [H | H | H].
  - destruct (Z.even (Qfloor x)); [left | right]; split; try reflexivity;
      rewrite H; apply Qle_refl.
  - left. split; [reflexivity | apply Qlt_le_weak, H].
  - right. split; [reflexivity | apply Qlt_le_weak, H].
Qed.

(** [round] never reorders two numbers. *)
Lemma py_round_le (x y : Q) : x <= y -> (py_round x <= py_round y)%Z.
Proof.
  intros Hxy.
  pose proof (Qfloor_resp_le x y Hxy) as Hf.
  destruct (Z.eq_dec (Qfloor x) (Qfloor y)) as [E | N].
  - unfold py_round. rewrite <- E.
    destruct (Qcompare_spec (x - inject_Z (Qfloor x)) (1 # 2)) as [Hx | Hx | Hx];
    destruct (Qcompare_spec (y - inject_Z (Qfloor x)) (1 # 2)) as [Hy | Hy | Hy];
    try destruct (Z.even (Qfloor x)); try lia; exfalso; lra.
  - destruct (py_round_cases x) as [[-> _] | [-> _]];
    destruct (py_round_cases y) as [[-> _] | [-> _]]; lia.
Qed.

Lemma py_round_inject_Z (n : Z) : py_round (inject_Z n) = n.
Proof.
  unfold py_round. rewrite Qfloor_Z.
  destruct (Qcompare_spec (inject_Z n - inject_Z n) (1 # 2)) as [H | H | H];
    try reflexivity; exfalso; lra.
Qed.

(** [round(x)] is within one half of [x]. *)
Lemma py_round_near (x : Q) :
  inject_Z (py_round x) - (1 # 2) <= x <= inject_Z (py_round x) + (1 # 2).
Proof.
  pose proof (Qfloor_le x) as Hlo. pose proof (Qlt_floor x) as Hhi.
  rewrite inject_Z_plus in Hhi. change (inject_Z 1) with 1 in Hhi.
  destruct (py_round_cases x) as [[-> H] | [-> H]];
    rewrite ?inject_Z_plus; change (inject_Z 1) with 1; split; lra.
Qed.

Lemma py_ge_spec (x y : Q) : py_ge x y = true <-> y <= x.
Proof. unfold py_ge. apply Qle_bool_iff. Qed.

Lemma equator_km_nonneg (a b : LatLon) : 0 <= equator_km a b.
Proof.
  unfold equator_km. apply Qmult_le_0_compat; [apply Qabs_nonneg | discriminate].
Qed.

(** ** Track loader *)

Lemma all_points_single_segment (pts : list GPXTrackPoint) :
  all_points (single_segment pts) = pts.
Proof. reflexivity. Qed.

Lemma all_points_empty_gpx : all_points empty_gpx = [].
Proof. reflexivity. Qed.

(** ** Coarse pass *)

Section CoarsePass.

Variable geodesic : LatLon -> LatLon -> Q.
Variable interval_km : Q.

(** The loop only appends, and what it appends is taken from the
    points it walks, in their order. *)
Lemma coarse_fold_sampled (rest : list GPXTrackPoint) (st : coarse_state) :
  exists extra,
    sampled_points (fold_left (coarse_step geodesic interval_km) rest st)
    = sampled_points st ++ extra
    /\ sublist extra rest.
Proof.
  revert st. induction rest as [| p rest IH]; intros st; simpl.
  - exists []. split; [symmetry; apply app_nil_r | constructor].
  - destruct (IH (coarse_step geodesic interval_km st p)) as (extra & -> & Hsub).
    unfold coarse_step.
    destruct (py_ge _ _); simpl.
    + exists (p :: extra). split.
      * rewrite <- app_assoc. reflexivity.
      * apply sublist_skip, Hsub.
    + exists extra. split; [reflexivity | apply sublist_cons, Hsub].
Qed.

Lemma sample_of_points_cons (p0 : GPXTrackPoint) (rest : list GPXTrackPoint) :
  exists extra,
    sample_of_points geodesic (p0 :: rest) interval_km
    = latlon p0 :: map latlon extra
    /\ sublist extra rest.
Proof.
  unfold sample_of_points, coarse_loop.
  destruct (coarse_fold_sampled rest
              {| sampled_points := [p0]; last_added := p0;
                 distance_accumulator := 0 |}) as (extra & -> & Hsub).
  exists extra. split; [reflexivity | exact Hsub].
Qed.

Lemma sublist_map_latlon (l1 l2 : list GPXTrackPoint) :
  sublist l1 l2 -> sublist (map latlon l1) (map latlon l2).
Proof.
  induction 1; simpl; [constructor | apply sublist_skip | apply sublist_cons];
    assumption.
Qed.

End CoarsePass.

(** C6. The coarse sample of an empty track is empty; the coarse sample
    of a non-empty track is non-empty and starts with the coordinates
    of the first raw point. *)
Theorem coarse_sample_first_point
    (geodesic : LatLon -> LatLon -> Q) (gpx : GPX) (interval_km : Q) :
  match all_points gpx with
  | [] => parse_gpx_points_every_n_km geodesic gpx interval_km = []
  | p0 :: _ =>
      exists others,
        parse_gpx_points_every_n_km geodesic gpx interval_km
        = (latitude p0, longitude p0) :: others
  end.
Proof.
  unfold parse_gpx_points_every_n_km.
  destruct (all_points gpx) as [| p0 rest]; [reflexivity |].
  destruct (sample_of_points_cons geodesic interval_km p0 rest)
    as (extra & -> & _).
  exists (map latlon extra). reflexivity.
Qed.

(** C10. The coarse sample is a subsequence of the raw points: each
    sampled pair is the coordinate pair of a raw point, and the pairs
    keep the order of the track. This holds for every interval, the
    positive ones included. *)
Theorem coarse_sample_is_subsequence
    (geodesic : LatLon -> LatLon -> Q) (gpx : GPX) (interval_km : Q) :
  sublist (parse_gpx_points_every_n_km geodesic gpx interval_km)
          (map latlon (all_points gpx)).
Proof.
  unfold parse_gpx_points_every_n_km.
  destruct (all_points gpx) as [| p0 rest]; [constructor |].
  destruct (sample_of_points_cons geodesic interval_km p0 rest)
    as (extra & -> & Hsub).
  simpl. apply sublist_skip, sublist_map_latlon, Hsub.
Qed.

(** C8. On a track of exactly three points whose consecutive points are
    at least 10 km apart (the scenario has them about 15 km apart),
    coarse sampling with interval 10 returns the three points in
    order. *)
Theorem coarse_sample_three_points
    (geodesic : LatLon -> LatLon -> Q) (gpx : GPX) (p0 p1 p2 : GPXTrackPoint) :
  all_points gpx = [p0; p1; p2] ->
  10 <= geodesic (latlon p0) (latlon p1) ->
  10 <= geodesic (latlon p1) (latlon p2) ->
  parse_gpx_points_every_n_km geodesic gpx 10 = [latlon p0; latlon p1; latlon p2].
Proof.
  intros Hpts H01 H12.
  unfold parse_gpx_points_every_n_km. rewrite Hpts.
  unfold sample_of_points, coarse_loop. simpl.
  assert (E1 : py_ge (0 + geodesic (latlon p0) (latlon p1)) 10 = true).
  { apply py_ge_spec. rewrite Qplus_0_l. exact H01. }
  unfold coarse_step at 2. simpl. rewrite E1.
  assert (E2 : py_ge (0 + geodesic (latlon p1) (latlon p2)) 10 = true).
  { apply py_ge_spec. rewrite Qplus_0_l. exact H12. }
  unfold coarse_step. simpl. rewrite E2. reflexivity.
Qed.

Lemma coarse_sample_three_points_witness :
  parse_gpx_points_every_n_km equator_km track_15km 10
  = [(0, 0); (0, 0.135); (0, 0.27)].
Proof.
  apply (coarse_sample_three_points equator_km track_15km
           (on_equator 0) (on_equator 0.135) (on_equator 0.27)).
  - reflexivity.
  - vm_compute. discriminate.
  - vm_compute. discriminate.
Defined.

(** C2. The coarse pass does not add up the distances between
    consecutive raw points. On three points of the equator about
    5.57 km apart and interval 15, the track is about 11.13 km long, so
    a pass that adds consecutive distances keeps the first point only;
    the code adds the distance from the first point to the second
    (5.57) and from the first point to the third (11.13), reaches
    16.70 and accepts the third point. *)
Theorem coarse_pass_measures_from_last_added :
  parse_gpx_points_every_n_km equator_km track_5km 15 = [(0, 0); (0, 0.10)]
  /\ spec_sample_of_points equator_km (all_points track_5km) 15 = [(0, 0)]
  /\ path_km equator_km (all_points track_5km) < 15.
Proof.
  split; [| split].
  - vm_compute. reflexivity.
  - vm_compute. reflexivity.
  - vm_compute. reflexivity.
Qed.

(** ** Marker pass *)

Section MarkerPass.

Variable geodesic : LatLon -> LatLon -> Q.
Variable interval_km : Q.

Lemma last_cons_default (x d : GPXTrackPoint) (l : list GPXTrackPoint) :
  List.last (x :: l) d = List.last l x.
Proof.
  revert x d. induction l as [| y l IH]; intros x d; [reflexivity |].
  change (List.last (x :: y :: l) d) with (List.last (y :: l) d).
  rewrite (IH y d), (IH y x). reflexivity.
Qed.

Lemma path_km_from_snoc (acc : Q) (prev : GPXTrackPoint)
    (pre : list GPXTrackPoint) (p : GPXTrackPoint) :
  path_km_from geodesic acc prev (pre ++ [p])
  = path_km_from geodesic acc prev pre
    + geodesic (latlon (List.last pre prev)) (latlon p).
Proof.
  revert acc prev. induction pre as [| q pre IH]; intros acc prev.
  - reflexivity.
  - simpl path_km_from. rewrite IH, last_cons_default. reflexivity.
Qed.

(** The running total is the length of the track walked so far, and
    [last_point] is the previous raw point. *)
Lemma marker_fold_total (rest : list GPXTrackPoint) (st : marker_state) :
  total_distance (fold_left (marker_step geodesic interval_km) rest st)
  = path_km_from geodesic (total_distance st) (last_point st) rest
  /\ last_point (fold_left (marker_step geodesic interval_km) rest st)
     = List.last rest (last_point st).
Proof.
  revert st. induction rest as [| p rest IH]; intros st.
  - split; reflexivity.
  - simpl fold_left. destruct (IH (marker_step geodesic interval_km st p)) as [-> ->].
    split; [reflexivity | symmetry; apply last_cons_default].
Qed.

Lemma marker_loop_total (p0 : GPXTrackPoint) (rest : list GPXTrackPoint) :
  total_distance (marker_loop geodesic interval_km p0 rest)
  = path_km geodesic (p0 :: rest).
Proof. apply marker_fold_total. Qed.

(** Processing one more point. *)
Lemma markers_of_points_snoc (p0 : GPXTrackPoint)
    (pre : list GPXTrackPoint) (p : GPXTrackPoint) :
  let before := markers_of_points geodesic (p0 :: pre) interval_km in
  let total := path_km geodesic (p0 :: pre ++ [p]) in
  let accept :=
    match last before with
    | None => true
    | Some m => py_ge (total - inject_Z (snd m)) interval_km
    end in
  markers_of_points geodesic (p0 :: pre ++ [p]) interval_km
  = if accept
    then before ++ [(latitude p, longitude p, py_round total)]
    else before.
Proof.
  cbv zeta. unfold markers_of_points, marker_loop, path_km.
  rewrite fold_left_app. simpl fold_left.
  rewrite path_km_from_snoc.
  set (st := fold_left (marker_step geodesic interval_km) pre _).
  destruct (marker_fold_total pre
              {| markers := []; total_distance := 0; last_point := p0 |})
    as [Ht Hl].
  fold st in Ht, Hl. simpl in Ht, Hl.
  unfold marker_step. simpl markers. rewrite Ht, Hl. reflexivity.
Qed.

(** A marker, once recorded, stays. *)
Lemma marker_fold_prefix (rest : list GPXTrackPoint) (st : marker_state) :
  markers st
  `prefix_of` markers (fold_left (marker_step geodesic interval_km) rest st).
Proof.
  revert st. induction rest as [| p rest IH]; intros st; simpl.
  - reflexivity.
  - etransitivity; [| apply IH].
    unfold marker_step. simpl.
    destruct (match last (markers st) with None => _ | Some _ => _ end).
    + apply prefix_app_r. reflexivity.
    + reflexivity.
Qed.

Lemma markers_of_points_prefix (p0 : GPXTrackPoint)
    (pre post : list GPXTrackPoint) :
  markers_of_points geodesic (p0 :: pre) interval_km
  `prefix_of` markers_of_points geodesic (p0 :: pre ++ post) interval_km.
Proof.
  unfold markers_of_points, marker_loop. rewrite fold_left_app.
  apply marker_fold_prefix.
Qed.

End MarkerPass.

(** C4, amended. The marker pass accepts the second raw point whatever
    its distance; every later point is accepted exactly when the length
    of the track up to it (consecutive geodesic distances added from
    the start) minus the rounded distance recorded in the last marker
    is at least the interval. An accepted point is recorded as
    (latitude, longitude, rounded length), after the markers recorded
    before it, and stays in the output whatever follows. *)
Theorem marker_pass_acceptance
    (geodesic : LatLon -> LatLon -> Q) (interval_km : Q)
    (p0 : GPXTrackPoint) (pre : list GPXTrackPoint) (p : GPXTrackPoint)
    (post : list GPXTrackPoint) :
  let before := markers_of_points geodesic (p0 :: pre) interval_km in
  let total := path_km geodesic (p0 :: pre ++ [p]) in
  let upto := markers_of_points geodesic (p0 :: pre ++ [p]) interval_km in
  let recorded := (latitude p, longitude p, py_round total) in
  upto = match last before with
         | None => before ++ [recorded]
         | Some m =>
             if py_ge (total - inject_Z (snd m)) interval_km
             then before ++ [recorded]
             else before
         end
  /\ upto `prefix_of`
       markers_of_points geodesic (p0 :: pre ++ p :: post) interval_km.
Proof.
  cbv zeta. split.
  - rewrite markers_of_points_snoc.
    destruct (last (markers_of_points geodesic (p0 :: pre) interval_km));
      reflexivity.
  - replace (pre ++ p :: post) with ((pre ++ [p]) ++ post)
      by (rewrite <- app_assoc; reflexivity).
    apply markers_of_points_prefix.
Qed.

(** C4 as stated fails. With markers every 10 km and raw points at
    about 0.11 km and 10.05 km from the start, the code records both:
    the first although its total distance is below the interval, since
    no marker exists yet; the second although it lies only 9.94 km after
    the total distance at which the first was accepted, since the code
    subtracts the recorded 0 and not 0.11. The pass worded as the claim
    records the second point only. *)
Lemma marker_pass_baseline_is_rounded :
  get_distance_markers equator_km track_0_10 10
  = [(0, 0.001, 0%Z); (0, 0.0903, 10%Z)]
  /\ path_km equator_km [on_equator 0; on_equator 0.001] < 10
  /\ path_km equator_km [on_equator 0; on_equator 0.001; on_equator 0.0903]
     - path_km equator_km [on_equator 0; on_equator 0.001] < 10
  /\ get_distance_markers equator_km track_0_10 10
     <> spec_markers_of_points equator_km (all_points track_0_10) 10.
Proof.
  refine (conj _ (conj _ (conj _ _))).
  - vm_compute. reflexivity.
  - vm_compute. reflexivity.
  - vm_compute. reflexivity.
  - vm_compute. discriminate.
Qed.

(** The rounded baseline alone: raw points at about 10.40 km and
    20.20 km; the second is 9.81 km after the first and is accepted,
    10 being subtracted instead of 10.40. *)
Example marker_pass_on_track_10_20 :
  get_distance_markers equator_km track_10_20 10
  = [(0, 0.0934, 10%Z); (0, 0.1815, 20%Z)]
  /\ spec_markers_of_points equator_km (all_points track_10_20) 10
     = [(0, 0.0934, 10%Z)].
Proof. split; vm_compute; reflexivity. Qed.

(** The second raw point becomes a marker even 0.11 km after the
    start. *)
Example marker_pass_first_marker_unconditional :
  get_distance_markers equator_km track_short 10 = [(0, 0.001, 0%Z)]
  /\ spec_markers_of_points equator_km (all_points track_short) 10 = [].
Proof. split; vm_compute; reflexivity. Qed.

(** ** Order of the recorded distances *)

Lemma StronglySorted_snoc {A} (R : A -> A -> Prop) (l : list A) (x : A) :
  StronglySorted R l -> Forall (fun y => R y x) l -> StronglySorted R (l ++ [x]).
Proof.
  induction 1 as [| a l Hs IH Ha]; intros Hx; simpl.
  - repeat constructor.
  - inversion Hx; subst. constructor.
    + apply IH. assumption.
    + apply Forall_app. split; [assumption | repeat constructor; assumption].
Qed.

Section MarkerOrder.

Variable geodesic : LatLon -> LatLon -> Q.
Variable interval_km : Q.
Hypothesis geodesic_nonneg : forall a b, 0 <= geodesic a b.

Lemma marker_step_order (st : marker_state) (p : GPXTrackPoint) :
  marker_order_inv st ->
  marker_order_inv (marker_step geodesic interval_km st p).
Proof.
  intros [Hs Hb]. unfold marker_order_inv, marker_step. simpl.
  set (total := total_distance st + _).
  assert (Hmono : (py_round (total_distance st) <= py_round total)%Z).
  { apply py_round_le. subst total.
    pose proof (geodesic_nonneg (latlon (last_point st)) (latlon p)). lra. }
  assert (Hb' : Forall (fun d => (d <= py_round total)%Z) (map snd (markers st))).
  { eapply Forall_impl; [exact Hb |]. simpl. intros d Hd. lia. }
  destruct (match last (markers st) with None => _ | Some _ => _ end).
  - rewrite map_app. simpl. split.
    + apply StronglySorted_snoc; assumption.
    + apply Forall_app. split; [assumption | repeat constructor; lia].
  - split; assumption.
Qed.

Lemma marker_fold_order (rest : list GPXTrackPoint) (st : marker_state) :
  marker_order_inv st ->
  marker_order_inv (fold_left (marker_step geodesic interval_km) rest st).
Proof.
  revert st. induction rest as [| p rest IH]; intros st Hst; simpl.
  - exact Hst.
  - apply IH, marker_step_order, Hst.
Qed.

End MarkerOrder.

(** C7. Geodesic distances are never negative; then, for every positive
    interval, the distances recorded by the marker pass never decrease
    from one marker to the next: each is less than or equal to all the
    later ones. *)
Theorem marker_distances_monotone
    (geodesic : LatLon -> LatLon -> Q) (gpx : GPX) (interval_km : Q) :
  (forall a b, 0 <= geodesic a b) ->
  0 < interval_km ->
  StronglySorted Z.le (map snd (get_distance_markers geodesic gpx interval_km)).
Proof.
  intros Hnonneg _.
  unfold get_distance_markers, markers_of_points.
  destruct (all_points gpx) as [| p0 rest]; [constructor |].
  apply (marker_fold_order geodesic interval_km Hnonneg).
  split; constructor.
Qed.

Lemma marker_distances_monotone_witness :
  (forall a b, 0 <= equator_km a b)
  /\ 0 < 10
  /\ StronglySorted Z.le (map snd (get_distance_markers equator_km track_10_20 10)).
Proof.
  split; [exact equator_km_nonneg |].
  split; [reflexivity |].
  apply (marker_distances_monotone equator_km track_10_20 10).
  - exact equator_km_nonneg.
  - reflexivity.
Defined.

Lemma StronglySorted_snoc_inv {A} (R : A -> A -> Prop) (l : list A) (x : A) :
  StronglySorted R (l ++ [x]) -> Forall (fun y => R y x) l.
Proof.
  induction l as [| a l IH]; simpl; intros Hs; [constructor |].
  inversion Hs as [| ? ? Hs' Ha]; subst. constructor.
  - apply Forall_app in Ha. destruct Ha as [_ Hx]. inversion Hx; assumption.
  - apply IH, Hs'.
Qed.

Section MarkerStrictOrder.

Variable geodesic : LatLon -> LatLon -> Q.
Variable interval_km : Q.
Hypothesis interval_at_least_1 : 1 <= interval_km.

Lemma marker_step_strict (st : marker_state) (p : GPXTrackPoint) :
  StronglySorted Z.lt (map snd (markers st)) ->
  StronglySorted Z.lt
    (map snd (markers (marker_step geodesic interval_km st p))).
Proof.
  intros Hs. unfold marker_step. simpl.
  set (total := total_distance st + _).
  destruct (last (markers st)) as [m |] eqn:Hlast.
  - destruct (py_ge (total - inject_Z (snd m)) interval_km) eqn:Hge;
      [| exact Hs].
    apply py_ge_spec in Hge.
    apply last_Some in Hlast. destruct Hlast as [ms' Hms].
    rewrite map_app. apply StronglySorted_snoc; [exact Hs |].
    assert (Hnext : (snd m + 1 <= py_round total)%Z).
    { rewrite <- (py_round_inject_Z (snd m + 1)). apply py_round_le.
      rewrite inject_Z_plus. change (inject_Z 1) with 1. lra. }
    rewrite Hms in Hs |- *. rewrite map_app in Hs |- *. simpl in Hs |- *.
    pose proof (StronglySorted_snoc_inv _ _ _ Hs) as Hbelow.
    apply Forall_app. split.
    + eapply Forall_impl; [exact Hbelow |]. simpl. intros d Hd. lia.
    + repeat constructor. simpl. lia.
  - apply last_None in Hlast. rewrite Hlast. simpl. repeat constructor.
Qed.

Lemma marker_fold_strict (rest : list GPXTrackPoint) (st : marker_state) :
  StronglySorted Z.lt (map snd (markers st)) ->
  StronglySorted Z.lt
    (map snd (markers (fold_left (marker_step geodesic interval_km) rest st))).
Proof.
  revert st. induction rest as [| p rest IH]; intros st Hst; simpl.
  - exact Hst.
  - apply IH, marker_step_strict, Hst.
Qed.

End MarkerStrictOrder.

(** With an interval of at least 1 km (the program uses 10) no two
    markers record the same distance. *)
Lemma marker_distances_increasing
    (geodesic : LatLon -> LatLon -> Q) (gpx : GPX) (interval_km : Q) :
  1 <= interval_km ->
  StronglySorted Z.lt (map snd (get_distance_markers geodesic gpx interval_km)).
Proof.
  intros Hi.
  unfold get_distance_markers, markers_of_points.
  destruct (all_points gpx) as [| p0 rest]; [constructor |].
  apply (marker_fold_strict geodesic interval_km Hi). constructor.
Qed.

(** Below that, two markers can record the same distance: raw points at
    0.11 km and 0.22 km with interval 0.05 are both recorded as 0. *)
Example marker_distances_tie :
  map snd (get_distance_markers equator_km track_short 0.05) = [0%Z; 0%Z].
Proof. vm_compute. reflexivity. Qed.

(** ** Deduplicator *)

Lemma first_with_name_app (n : string) (l1 l2 : list Locker) :
  first_with_name n (l1 ++ l2)
  = match first_with_name n l1 with
    | Some x => Some x
    | None => first_with_name n l2
    end.
Proof.
  unfold first_with_name. induction l1 as [| x l1 IH]; simpl; [reflexivity |].
  destruct (String.eqb (name x) n); [reflexivity | exact IH].
Qed.

Lemma first_with_name_None (n : string) (l : list Locker) :
  first_with_name n l = None <-> n ∉ map name l.
Proof.
  unfold first_with_name. induction l as [| x l IH]; simpl.
  - split; [intros _; apply not_elem_of_nil | reflexivity].
  - rewrite not_elem_of_cons.
    destruct (String.eqb (name x) n) eqn:E.
    + apply String.eqb_eq in E. split; [discriminate | intros [Hne _]; congruence].
    + apply String.eqb_neq in E. rewrite IH. split; [intros H; split; congruence | tauto].
Qed.

(** What the loop has established after the records [done]: [seen]
    holds the names of [unique], no name occurs twice in [unique],
    [unique] is a subsequence of [done], and the first record of any
    name is the same in both. *)
Lemma unique_fold_inv (rest done : list Locker) (seen : gset string)
    (unique : list Locker) :
  (forall n, n ∈ seen <-> n ∈ map name unique) ->
  NoDup (map name unique) ->
  sublist unique done ->
  (forall n, first_with_name n unique = first_with_name n done) ->
  let unique' := snd (fold_left unique_step rest (seen, unique)) in
  NoDup (map name unique')
  /\ sublist unique' (done ++ rest)
  /\ (forall n, first_with_name n unique' = first_with_name n (done ++ rest)).
Proof.
  revert done seen unique.
  induction rest as [| x rest IH]; intros done seen unique Hseen Hnd Hsub Hfirst.
  - simpl. rewrite app_nil_r. auto.
  - simpl fold_left.
    replace (done ++ x :: rest) with ((done ++ [x]) ++ rest)
      by (rewrite <- app_assoc; reflexivity).
    destruct (decide (name x ∈ seen)) as [Hin | Hnotin].
    + apply IH; try assumption.
      * apply sublist_inserts_r, Hsub.
      * intros n. rewrite first_with_name_app, <- Hfirst.
        destruct (first_with_name n unique) eqn:E; [reflexivity |].
        apply first_with_name_None in E.
        unfold first_with_name. simpl.
        destruct (String.eqb (name x) n) eqn:En; [| reflexivity].
        apply String.eqb_eq in En. subst n.
        exfalso. apply E, Hseen, Hin.
    + apply IH.
      * intros n. rewrite map_app, elem_of_union, elem_of_app, Hseen.
        simpl. rewrite elem_of_singleton, list_elem_of_singleton. tauto.
      * rewrite map_app. simpl. apply NoDup_app. split; [exact Hnd |].
        split; [| apply NoDup_singleton].
        intros n Hn Hx. apply list_elem_of_singleton in Hx. subst n.
        apply Hnotin, Hseen, Hn.
      * apply sublist_app; [exact Hsub | reflexivity].
      * intros n. rewrite !first_with_name_app, Hfirst. reflexivity.
Qed.

(** C5. Deduplication keeps, of all the records that share a name, the
    first one in arrival order and nothing else: no name occurs twice in
    the output, the output is a subsequence of the input, and for every
    name the record of that name in the output is the first record of
    that name in the input, whatever the coordinates of the later ones;
    a name absent from the input is absent from the output. *)
Theorem unique_lockers_keeps_first (all_lockers : list Locker) :
  NoDup (map name (unique_lockers all_lockers))
  /\ sublist (unique_lockers all_lockers) all_lockers
  /\ (forall n,
        first_with_name n (unique_lockers all_lockers)
        = first_with_name n all_lockers).
Proof.
  unfold unique_lockers.
  apply (unique_fold_inv all_lockers [] ∅ []).
  - intros n. simpl. split; intros H.
    + exfalso. exact (not_elem_of_empty (C:=gset string) n H).
    + exfalso. exact (not_elem_of_nil n H).
  - constructor.
  - constructor.
  - reflexivity.
Qed.

(** The scenario of the specification: two records named Locker-A at
    different coordinates. *)
Example unique_lockers_locker_A :
  unique_lockers [locker_A1; locker_B; locker_A2] = [locker_A1; locker_B].
Proof. vm_compute. reflexivity. Qed.

(** ** Number formatting *)

Lemma string_length_append (s1 s2 : string) :
  String.length (s1 +:+ s2) = (String.length s1 + String.length s2)%nat.
Proof.
  induction s1 as [| c s1 IH]; [reflexivity |].
  change (S (String.length (s1 +:+ s2))
          = S (String.length s1 + String.length s2)).
  rewrite IH. reflexivity.
Qed.

Lemma all_digits_append (s1 s2 : string) :
  all_digits (s1 +:+ s2) = all_digits s1 && all_digits s2.
Proof.
  induction s1 as [| c s1 IH]; [reflexivity |].
  change (is_digit c && all_digits (s1 +:+ s2)
          = is_digit c && all_digits s1 && all_digits s2).
  rewrite IH. apply andb_assoc.
Qed.

Lemma digit_char_is_digit (d : Z) :
  (0 <= d < 10)%Z -> is_digit (digit_char d) = true.
Proof.
  intros Hd.
  assert (d = 0 \/ d = 1 \/ d = 2 \/ d = 3 \/ d = 4 \/ d = 5 \/ d = 6
          \/ d = 7 \/ d = 8 \/ d = 9)%Z as H by lia.
  repeat (destruct H as [-> | H]; [reflexivity |]). subst d. reflexivity.
Qed.

Lemma digits_fixed_spec (width : nat) (n : Z) :
  String.length (digits_fixed width n) = width
  /\ all_digits (digits_fixed width n) = true.
Proof.
  revert n. induction width as [| w IH]; intros n; [split; reflexivity |].
  destruct (IH (n / 10)%Z) as [Hlen Hdig].
  change (digits_fixed (S w) n)
    with (digits_fixed w (n / 10) +:+ String (digit_char (n mod 10)) EmptyString).
  rewrite string_length_append, all_digits_append, Hlen, Hdig.
  change (String.length (String (digit_char (n mod 10)) EmptyString)) with 1%nat.
  change (all_digits (String (digit_char (n mod 10)) EmptyString))
    with (is_digit (digit_char (n mod 10)) && true).
  rewrite digit_char_is_digit by (apply Z.mod_pos_bound; lia).
  split; [lia | reflexivity].
Qed.

Lemma pretty_N_char_is_digit (x : N) : is_digit (pretty_N_char x) = true.
Proof. unfold pretty_N_char. repeat case_match; reflexivity. Qed.

Lemma pretty_N_go_digits (x : N) (s : string) :
  all_digits s = true -> all_digits (pretty_N_go x s) = true.
Proof.
  revert s. induction (N.lt_wf_0 x) as [x _ IH]; intros s Hs.
  destruct (N.eq_dec x 0%N) as [-> | Hx]; [rewrite pretty_N_go_0; exact Hs |].
  rewrite pretty_N_go_step by lia.
  apply IH; [apply N.div_lt; lia |].
  simpl. rewrite pretty_N_char_is_digit, Hs. reflexivity.
Qed.

Lemma pretty_N_go_nonempty (x : N) (s : string) :
  s <> "" -> pretty_N_go x s <> "".
Proof.
  revert s. induction (N.lt_wf_0 x) as [x _ IH]; intros s Hs.
  destruct (N.eq_dec x 0%N) as [-> | Hx]; [rewrite pretty_N_go_0; exact Hs |].
  rewrite pretty_N_go_step by lia.
  apply IH; [apply N.div_lt; lia | discriminate].
Qed.

Lemma pretty_Z_digits (n : Z) :
  (0 <= n)%Z -> pretty n <> "" /\ all_digits (pretty n) = true.
Proof.
  intros Hn. destruct n as [| p | p]; [split; [discriminate | reflexivity] | | lia].
  unfold pretty, pretty_Z, pretty, pretty_positive, pretty, pretty_N.
  destruct (decide (N.pos p = 0%N)) as [E | _]; [discriminate E |].
  rewrite pretty_N_go_step by lia.
  split.
  - apply pretty_N_go_nonempty. discriminate.
  - apply pretty_N_go_digits. simpl. rewrite pretty_N_char_is_digit. reflexivity.
Qed.

Lemma py_round_nonneg (x : Q) : 0 <= x -> (0 <= py_round x)%Z.
Proof.
  intros Hx. change 0%Z with (py_round (inject_Z 0)) at 1.
  - apply py_round_le. exact Hx.
Qed.

(** [f"{x:.kf}"] with [k > 0] has exactly [k] decimals. *)
Lemma format_f_decimals (k : nat) (x : Q) :
  has_decimals (S k) (format_f (S k) x).
Proof.
  unfold format_f.
  set (scale := (10 ^ Z.of_nat (S k))%Z).
  set (scaled := py_round (Qabs x * inject_Z scale)).
  assert (Hscale : (0 < scale)%Z) by (apply Z.pow_pos_nonneg; lia).
  assert (Hscaled : (0 <= scaled)%Z).
  { apply py_round_nonneg, Qmult_le_0_compat; [apply Qabs_nonneg |].
    change 0 with (inject_Z 0). rewrite <- Zle_Qle. lia. }
  destruct (digits_fixed_spec (S k) (scaled mod scale)) as [Hlen Hdig].
  destruct (pretty_Z_digits (scaled / scale)) as [Hne Hwd];
    [apply Z.div_pos; lia |].
  exists (if Qlt_le_dec x 0 then "-" else ""), (pretty (scaled / scale)%Z),
         (digits_fixed (S k) (scaled mod scale)).
  repeat split; try assumption.
  destruct (Qlt_le_dec x 0); [right | left]; reflexivity.
Qed.















Section Scaled.

Variables (p d : positive).
Let x : Q := Z.pos p # d.
Let e : Z := ulp_exponent x.




End Scaled.






















(** ** The request *)


(** The metres sent for the configured radius, for 2.3 km, where the
    float product is 2300.0 although the exact product is below 2300,
    and for 1.001 km, where the float product is below 1001. *)
Example search_radius_in_meters :
  params (locker_request 0 0 SEARCH_RADIUS_KM "secret") !! "max_distance"
  = Some (PInt 2000)
  /\ params (locker_request 0 0 double_2_3 "secret") !! "max_distance"
     = Some (PInt 2300)
  /\ double_2_3 * 1000 < 2300
  /\ params (locker_request 0 0 double_1_001 "secret") !! "max_distance"
     = Some (PInt 1000).
Proof. repeat split; vm_compute; reflexivity. Qed.

(** ** Locker fetcher *)

(** The fetcher consults the locator with [locker_request] and with
    nothing else. *)
Lemma fetcher_sends_locker_request (http : Request -> Response)
    (lat lon radius_km : Q) (token : string) :
  get_nearby_parcel_lockers http lat lon radius_km token
  = get_nearby_parcel_lockers
      (fun _ => http (locker_request lat lon radius_km token))
      lat lon radius_km token.
Proof. reflexivity. Qed.



(** A tie: 1/128 = 0.0078125 is printed with the even last digit. *)
Example format_f_tie : format_f 6 (1 # 128) = "0.007812".
Proof. vm_compute. reflexivity. Qed.

(** A 200 answer that does not decode is reported like a transport
    failure and gives the empty list, on which [main] raises. *)
Example fetcher_on_undecodable_body :
  run (get_nearby_parcel_lockers http_not_json 0 0 SEARCH_RADIUS_KM "secret")
  = (["[DEBUG] Response status: 200";
      "[EXCEPTION] Request error: Expecting value: line 1 column 1 (char 0)"],
     Returned (PyList []))
  /\ snd (run (main equator_km http_not_json "secret" track_15km))
     = Raised AttributeError.
Proof. split; vm_compute; reflexivity. Qed.

Example locker_request_example :
  params (locker_request (4912345678 # 100000000) (-(1 # 3)) 2 "secret")
    !! "relative_point"
  = Some (PStr "49.123457,-0.333333").
Proof. vm_compute. reflexivity. Qed.

Section FetchFailure.

Variable http : Request -> Response.
Variable token : string.

(** The fetcher itself never raises, and a failed query makes it
    return the empty list. *)
Lemma fetcher_returns (lat lon radius_km : Q) (out : list string) :
  exists out' value,
    get_nearby_parcel_lockers http lat lon radius_km token out
    = (out', Returned value)
    /\ (failed (http (locker_request lat lon radius_km token)) ->
        value = PyList []).
Proof.
  cbv [get_nearby_parcel_lockers bind print ret failed].
  destruct (http (locker_request lat lon radius_km token))
    as [status_code text data | status_code text error | message].
  - destruct (status_code =? 200)%Z eqn:E.
    + eexists _, _. split; [reflexivity |].
      apply Z.eqb_eq in E. intros H. contradiction.
    + eexists _, _. split; [reflexivity | intros _; reflexivity].
  - destruct (status_code =? 200)%Z;
      eexists _, _; (split; [reflexivity | intros _; reflexivity]).
  - eexists _, _. split; [reflexivity | intros _; reflexivity].
Qed.

(** [main] asks the returned value for its [items]: after a failed
    query that value is a list and the loop body raises. *)
Lemma fetch_point_failed (total index : nat) (lat lon : Q)
    (all_lockers : list Locker) (out : list string) :
  failed (http (locker_request lat lon SEARCH_RADIUS_KM token)) ->
  snd (fetch_point http token total all_lockers (index, (lat, lon)) out)
  = Raised AttributeError.
Proof.
  intros Hfail.
  cbv [fetch_point bind print].
  destruct (fetcher_returns lat lon SEARCH_RADIUS_KM
              (out ++ ["[INFO] Processing point " +:+ pretty (index + 1)%nat
                       +:+ "/" +:+ pretty total +:+ " at ("
                       +:+ format_f 5 lat +:+ ", " +:+ format_f 5 lon +:+ ")"]))
    as (out' & value & -> & Hvalue).
  rewrite (Hvalue Hfail). reflexivity.
Qed.

(** The loop body raises nothing but [AttributeError]. *)
Lemma fetch_point_cases (total : nat) (indexed : nat * LatLon)
    (all_lockers : list Locker) (out : list string) :
  (exists out' all_lockers',
      fetch_point http token total all_lockers indexed out
      = (out', Returned all_lockers'))
  \/ (exists out',
      fetch_point http token total all_lockers indexed out
      = (out', Raised AttributeError)).
Proof.
  destruct indexed as [index [lat lon]].
  cbv [fetch_point bind print].
  destruct (fetcher_returns lat lon SEARCH_RADIUS_KM
              (out ++ ["[INFO] Processing point " +:+ pretty (index + 1)%nat
                       +:+ "/" +:+ pretty total +:+ " at ("
                       +:+ format_f 5 lat +:+ ", " +:+ format_f 5 lon +:+ ")"]))
    as (out' & value & -> & _).
  destruct value; cbv [get_items ret raise]; [left | right]; eauto.
Qed.

Lemma fetch_loop_failed (total : nat) (todo : list (nat * LatLon))
    (index : nat) (lat lon : Q) :
  (index, (lat, lon)) ∈ todo ->
  failed (http (locker_request lat lon SEARCH_RADIUS_KM token)) ->
  forall all_lockers out,
    snd (fetch_loop http token total all_lockers todo out)
    = Raised AttributeError.
Proof.
  intros Hin Hfail.
  induction todo as [| indexed todo IH]; intros all_lockers out.
  - exfalso. exact (not_elem_of_nil _ Hin).
  - simpl fetch_loop. unfold bind at 1.
    apply elem_of_cons in Hin. destruct Hin as [<- | Hin].
    + pose proof (fetch_point_failed total index lat lon all_lockers out Hfail) as H.
      destruct (fetch_point http token total all_lockers (index, (lat, lon)) out)
        as [out' [all' | e]]; simpl in H; [discriminate H | exact H].
    + destruct (fetch_point_cases total indexed all_lockers out)
        as [(out' & all' & ->) | (out' & ->)].
      * apply IH, Hin.
      * reflexivity.
Qed.

End FetchFailure.

(** X14. One failed query anywhere on the route ends [main] with
    [AttributeError], whatever the other queries returned. *)
Lemma main_failed_query_raises
    (geodesic : LatLon -> LatLon -> Q) (http : Request -> Response)
    (token : string) (gpx : GPX) (lat lon : Q) :
  (lat, lon) ∈ parse_gpx_points_every_n_km geodesic gpx TRAIL_CHUNK ->
  failed (http (locker_request lat lon SEARCH_RADIUS_KM token)) ->
  snd (run (main geodesic http token gpx)) = Raised AttributeError.
Proof.
  intros Hin Hfail.
  unfold run, main. cbv [bind print].
  set (route_points := parse_gpx_points_every_n_km geodesic gpx TRAIL_CHUNK) in *.
  apply list_elem_of_lookup in Hin. destruct Hin as [index Hindex].
  assert (Hin : (index, (lat, lon)) ∈ imap pair route_points).
  { apply list_elem_of_lookup. exists index.
    rewrite list_lookup_imap.
    transitivity (pair index <$> Some (lat, lon)); [| reflexivity].
    f_equal. exact Hindex. }
  match goal with
  | |- context [fetch_all http token route_points ?out] =>
      pose proof (fetch_loop_failed http token (length route_points)
                    (imap pair route_points) index lat lon Hin Hfail [] out) as H;
      fold (fetch_all http token route_points) in H;
      destruct (fetch_all http token route_points out) as [out' [all' | e]]
  end; simpl in H; [discriminate H | injection H as ->; reflexivity].
Qed.

(** C1. A failed query does abort the run. The fetcher prints the
    failure and returns the empty list; [main] then calls [get] on that
    list and raises [AttributeError]: with a locator that answers 500,
    with one that cannot be reached, and with one that answers the
    first of two points and fails on the second, in which case the
    records of the first point are lost with the run. *)
Theorem failed_query_aborts_run :
  run (get_nearby_parcel_lockers http_500 0 0 SEARCH_RADIUS_KM "secret")
  = (["[DEBUG] Response status: 500";
      "[ERROR] Failed with status code 500";
      "[ERROR] Response content: Internal Server Error"],
     Returned (PyList []))
  /\ run (get_nearby_parcel_lockers http_down 0 0 SEARCH_RADIUS_KM "secret")
     = (["[EXCEPTION] Request error: Connection refused"], Returned (PyList []))
  /\ snd (run (main equator_km http_500 "secret" track_15km))
     = Raised AttributeError
  /\ snd (run (main equator_km http_down "secret" track_15km))
     = Raised AttributeError
  /\ snd (run (main equator_km http_first_only "secret" track_556km))
     = Raised AttributeError.
Proof.
  refine (conj _ (conj _ (conj _ (conj _ _)))); vm_compute; reflexivity.
Qed.

(** A run whose queries all succeed draws the route, one pin per
    distinct locker and the distance label. *)
Example successful_run :
  snd (run (main equator_km http_ok "secret" track_556km))
  = Returned
      {| map_location := (0, 5);
         zoom_start := 10;
         children :=
           [PolyLine [(0, 0); (0, 5)] "blue" 3;
            Marker (50, 19) (Some "Locker-A<br>first")
              (FoliumIcon "green" "inbox" "fa");
            Marker (52, 21) (Some "Locker-B<br>")
              (FoliumIcon "green" "inbox" "fa");
            distance_label (0, 5, 557%Z)] |}.
Proof. vm_compute. reflexivity. Qed.

(** ** Empty track *)

Lemma create_map_empty_route (lockers : list Locker)
    (distance_markers : list DistanceMarker) (out : list string) :
  create_map_with_lockers [] lockers distance_markers out
  = (out, Raised IndexError).
Proof. reflexivity. Qed.

(** A track without points makes both passes return the empty list and
    [main] raise [IndexError] in the renderer. *)
Lemma main_no_points_raises
    (geodesic : LatLon -> LatLon -> Q) (http : Request -> Response)
    (token : string) (gpx : GPX) :
  all_points gpx = [] ->
  parse_gpx_points_every_n_km geodesic gpx TRAIL_CHUNK = []
  /\ get_distance_markers geodesic gpx DISTANCE_MARKERS_EACH = []
  /\ snd (run (main geodesic http token gpx)) = Raised IndexError.
Proof.
  intros Hempty.
  assert (Hroute : parse_gpx_points_every_n_km geodesic gpx TRAIL_CHUNK = []).
  { unfold parse_gpx_points_every_n_km. rewrite Hempty. reflexivity. }
  assert (Hmarkers : get_distance_markers geodesic gpx DISTANCE_MARKERS_EACH = []).
  { unfold get_distance_markers. rewrite Hempty. reflexivity. }
  refine (conj Hroute (conj Hmarkers _)).
  unfold run, main. rewrite Hroute, Hmarkers. reflexivity.
Qed.

(** C3. On a track file without points both sampling passes return the
    empty sequence, for every interval; the run, however, does not
    complete: the renderer indexes the empty route and [main] ends with
    [IndexError] instead of a map. *)
Theorem empty_track_run
    (geodesic : LatLon -> LatLon -> Q) (http : Request -> Response)
    (token : string) (interval_km : Q) :
  parse_gpx_points_every_n_km geodesic empty_gpx interval_km = []
  /\ get_distance_markers geodesic empty_gpx interval_km = []
  /\ snd (run (main geodesic http token empty_gpx)) = Raised IndexError.
Proof.
  refine (conj _ (conj _ _)).
  - reflexivity.
  - reflexivity.
  - apply (main_no_points_raises geodesic http token empty_gpx). reflexivity.
Qed.


(** * Further properties of the code *)

(** ** Track loader *)

Lemma all_points_fold_segments (segs : list GPXTrackSegment)
    (acc : list GPXTrackPoint) :
  fold_left (fun acc segment => acc ++ points segment) segs acc
  = acc ++ concat (map points segs).
Proof.
  revert acc. induction segs as [| seg segs IH]; intros acc; simpl.
  - symmetry. apply app_nil_r.
  - rewrite IH, <- app_assoc. reflexivity.
Qed.

Lemma all_points_fold_tracks (trks : list GPXTrack) (acc : list GPXTrackPoint) :
  fold_left
    (fun acc track =>
       fold_left (fun acc segment => acc ++ points segment) (segments track) acc)
    trks acc
  = acc ++ concat (map points (concat (map segments trks))).
Proof.
  revert acc. induction trks as [| trk trks IH]; intros acc; simpl.
  - symmetry. apply app_nil_r.
  - rewrite IH, all_points_fold_segments, map_app, concat_app, <- app_assoc.
    reflexivity.
Qed.

(** X1. The loader returns the points of all segments of all tracks,
    in file order, as one list. *)
Theorem all_points_flatten (gpx : GPX) :
  all_points gpx = concat (map points (concat (map segments (tracks gpx)))).
Proof. unfold all_points. rewrite all_points_fold_tracks. reflexivity. Qed.

Lemma all_points_tracks_app (trks1 trks2 : list GPXTrack) :
  all_points {| tracks := trks1 ++ trks2 |}
  = all_points {| tracks := trks1 |} ++ all_points {| tracks := trks2 |}.
Proof.
  unfold all_points. rewrite !all_points_fold_tracks. simpl.
  rewrite map_app, concat_app, map_app, concat_app. reflexivity.
Qed.

(** ** Coarse pass, continued *)

Section CoarsePassMore.

Variable geodesic : LatLon -> LatLon -> Q.
Variable interval_km : Q.

Lemma coarse_fold_prefix (rest : list GPXTrackPoint) (st : coarse_state) :
  sampled_points st
  `prefix_of` sampled_points (fold_left (coarse_step geodesic interval_km) rest st).
Proof.
  destruct (coarse_fold_sampled geodesic interval_km rest st) as (extra & -> & _).
  apply prefix_app_r. reflexivity.
Qed.

Lemma sample_of_points_prefix (pts post : list GPXTrackPoint) :
  sample_of_points geodesic pts interval_km
  `prefix_of` sample_of_points geodesic (pts ++ post) interval_km.
Proof.
  destruct pts as [| p0 pre]; [apply prefix_nil |].
  simpl. unfold coarse_loop. rewrite fold_left_app.
  destruct (coarse_fold_prefix post
              (fold_left (coarse_step geodesic interval_km) pre
                 {| sampled_points := [p0]; last_added := p0;
                    distance_accumulator := 0 |})) as [extra ->].
  rewrite map_app. apply prefix_app_r. reflexivity.
Qed.

(** With the accumulator at zero, points that are each far enough from
    the one before are all appended. *)
Lemma coarse_fold_spaced (rest : list GPXTrackPoint)
    (sampled : list GPXTrackPoint) (a : GPXTrackPoint) :
  spaced_from geodesic interval_km a rest ->
  sampled_points
    (fold_left (coarse_step geodesic interval_km) rest
       {| sampled_points := sampled; last_added := a;
          distance_accumulator := 0 |})
  = sampled ++ rest.
Proof.
  revert sampled a. induction rest as [| p rest IH]; intros sampled a Hsp.
  - simpl. symmetry. apply app_nil_r.
  - destruct Hsp as [Hd Hrest]. simpl fold_left. unfold coarse_step at 2. simpl.
    assert (E : py_ge (0 + geodesic (latlon a) (latlon p)) interval_km = true).
    { apply py_ge_spec. rewrite Qplus_0_l. exact Hd. }
    rewrite E, (IH _ _ Hrest), <- app_assoc. reflexivity.
Qed.

Hypothesis geodesic_nonneg : forall a b, 0 <= geodesic a b.

Lemma anchored_fold_ge (a : GPXTrackPoint) (rest : list GPXTrackPoint) (x : Q) :
  x <= fold_left (fun acc q => acc + geodesic (latlon a) (latlon q)) rest x.
Proof.
  revert x. induction rest as [| p rest IH]; intros x; simpl.
  - apply Qle_refl.
  - eapply Qle_trans; [| apply IH].
    pose proof (geodesic_nonneg (latlon a) (latlon p)). lra.
Qed.

(** While the anchored sum stays below the interval nothing is
    appended. *)
Lemma coarse_fold_below (rest : list GPXTrackPoint)
    (sampled : list GPXTrackPoint) (a : GPXTrackPoint) (acc : Q) :
  fold_left (fun acc q => acc + geodesic (latlon a) (latlon q)) rest acc
  < interval_km ->
  sampled_points
    (fold_left (coarse_step geodesic interval_km) rest
       {| sampled_points := sampled; last_added := a;
          distance_accumulator := acc |})
  = sampled.
Proof.
  revert acc. induction rest as [| p rest IH]; intros acc Hlt; [reflexivity |].
  simpl in Hlt. simpl fold_left. unfold coarse_step at 2. simpl.
  destruct (py_ge (acc + geodesic (latlon a) (latlon p)) interval_km) eqn:E.
  - apply py_ge_spec in E.
    pose proof (anchored_fold_ge a rest (acc + geodesic (latlon a) (latlon p))).
    exfalso. lra.
  - apply IH, Hlt.
Qed.

(** Once the anchored sum reaches the interval a point is appended. *)
Lemma coarse_fold_reached (rest : list GPXTrackPoint)
    (sampled : list GPXTrackPoint) (a : GPXTrackPoint) (acc : Q) :
  acc < interval_km ->
  interval_km
  <= fold_left (fun acc q => acc + geodesic (latlon a) (latlon q)) rest acc ->
  (length sampled
   < length (sampled_points
               (fold_left (coarse_step geodesic interval_km) rest
                  {| sampled_points := sampled; last_added := a;
                     distance_accumulator := acc |})))%nat.
Proof.
  revert acc. induction rest as [| p rest IH]; intros acc Hacc Hge.
  - simpl in Hge. exfalso. lra.
  - simpl in Hge. simpl fold_left. unfold coarse_step at 2. simpl.
    destruct (py_ge (acc + geodesic (latlon a) (latlon p)) interval_km) eqn:E.
    + match goal with
      | |- context [fold_left ?f rest ?st] =>
          destruct (coarse_fold_sampled geodesic interval_km rest st)
            as (extra & -> & _)
      end.
      simpl. rewrite !length_app. simpl. lia.
    + apply IH; [| exact Hge].
      apply Qnot_le_lt. intros Hle. apply py_ge_spec in Hle. congruence.
Qed.

End CoarsePassMore.

(** X2. Tracks appended to a file do not change what was sampled from
    the tracks before them: the coarse sample of the shorter file is a
    prefix of the coarse sample of the longer one. *)
Theorem coarse_sample_appended_tracks
    (geodesic : LatLon -> LatLon -> Q) (interval_km : Q)
    (trks more : list GPXTrack) :
  parse_gpx_points_every_n_km geodesic {| tracks := trks |} interval_km
  `prefix_of`
  parse_gpx_points_every_n_km geodesic {| tracks := trks ++ more |} interval_km.
Proof.
  unfold parse_gpx_points_every_n_km. rewrite all_points_tracks_app.
  apply sample_of_points_prefix.
Qed.

(** X3. When every raw point is at least the interval away from the raw
    point before it, the coarse sample is the whole track. *)
Theorem coarse_sample_spaced_track
    (geodesic : LatLon -> LatLon -> Q) (gpx : GPX) (interval_km : Q)
    (p0 : GPXTrackPoint) (rest : list GPXTrackPoint) :
  all_points gpx = p0 :: rest ->
  spaced_from geodesic interval_km p0 rest ->
  parse_gpx_points_every_n_km geodesic gpx interval_km
  = map latlon (all_points gpx).
Proof.
  intros Hpts Hsp. unfold parse_gpx_points_every_n_km. rewrite Hpts.
  unfold sample_of_points, coarse_loop.
  rewrite (coarse_fold_spaced geodesic interval_km rest [p0] p0 Hsp).
  reflexivity.
Qed.

Lemma coarse_sample_spaced_track_witness :
  parse_gpx_points_every_n_km equator_km track_15km 10
  = map latlon (all_points track_15km).
Proof.
  apply (coarse_sample_spaced_track equator_km track_15km 10
           (on_equator 0) [on_equator 0.135; on_equator 0.27]).
  - reflexivity.
  - simpl. split; [vm_compute; discriminate |].
    split; [vm_compute; discriminate | exact I].
Defined.

(** X4. With distances that are never negative and a positive interval,
    the coarse sample consists of the first point alone exactly when the
    distances from the first point to each later raw point, added up,
    stay below the interval. *)
Theorem coarse_sample_single_point
    (geodesic : LatLon -> LatLon -> Q) (interval_km : Q)
    (p0 : GPXTrackPoint) (rest : list GPXTrackPoint) :
  (forall a b, 0 <= geodesic a b) ->
  0 < interval_km ->
  sample_of_points geodesic (p0 :: rest) interval_km = [latlon p0]
  <-> anchored_km geodesic p0 rest < interval_km.
Proof.
  intros Hnonneg Hpos. unfold sample_of_points, coarse_loop, anchored_km. split.
  - intros Hone.
    destruct (Qlt_le_dec
                (fold_left (fun acc q => acc + geodesic (latlon p0) (latlon q))
                   rest 0) interval_km) as [Hlt | Hge]; [exact Hlt |].
    pose proof (coarse_fold_reached geodesic interval_km rest [p0] p0 0
                  Hpos Hge) as Hlen.
    apply (f_equal (@length _)) in Hone. rewrite length_map in Hone.
    simpl in Hone, Hlen. lia.
  - intros Hlt.
    rewrite (coarse_fold_below geodesic interval_km Hnonneg rest [p0] p0 0 Hlt).
    reflexivity.
Qed.

Lemma coarse_sample_single_point_witness :
  sample_of_points equator_km
    [on_equator 0; on_equator 0.05; on_equator 0.10] 20
  = [latlon (on_equator 0)]
  <-> anchored_km equator_km (on_equator 0) [on_equator 0.05; on_equator 0.10]
      < 20.
Proof.
  apply (coarse_sample_single_point equator_km 20 (on_equator 0)
           [on_equator 0.05; on_equator 0.10]).
  - exact equator_km_nonneg.
  - reflexivity.
Defined.

(** ** Marker pass, continued *)

Section MarkerPassMore.

Variable geodesic : LatLon -> LatLon -> Q.
Variable interval_km : Q.

Lemma marker_fold_positions (rest : list GPXTrackPoint) (st : marker_state) :
  exists extra,
    markers (fold_left (marker_step geodesic interval_km) rest st)
    = markers st ++ extra
    /\ sublist (map fst extra) (map latlon rest).
Proof.
  revert st. induction rest as [| p rest IH]; intros st; simpl.
  - exists []. split; [symmetry; apply app_nil_r | constructor].
  - destruct (IH (marker_step geodesic interval_km st p)) as (extra & -> & Hsub).
    unfold marker_step. simpl.
    destruct (match last (markers st) with None => _ | Some _ => _ end).
    + exists ((latitude p, longitude p, py_round
                 (total_distance st
                  + geodesic (latlon (last_point st)) (latlon p))) :: extra).
      split; [rewrite <- app_assoc; reflexivity |].
      simpl. apply sublist_skip, Hsub.
    + exists extra. split; [reflexivity | apply sublist_cons, Hsub].
Qed.

(** Every marker of a track sits on a raw point after the first and
    records the rounded length of the track up to that point. *)
Lemma markers_of_points_recorded (p0 : GPXTrackPoint)
    (rest : list GPXTrackPoint) (m : DistanceMarker) :
  m ∈ markers_of_points geodesic (p0 :: rest) interval_km ->
  exists k p,
    rest !! k = Some p
    /\ fst m = latlon p
    /\ snd m = py_round (path_km geodesic (p0 :: take (S k) rest)).
Proof.
  induction rest as [| p pre IH] using rev_ind; intros Hm.
  - exfalso. exact (not_elem_of_nil _ Hm).
  - assert (Hcases :
      m ∈ markers_of_points geodesic (p0 :: pre) interval_km
      \/ m = (latitude p, longitude p,
              py_round (path_km geodesic (p0 :: pre ++ [p])))).
    { rewrite markers_of_points_snoc in Hm. cbv zeta in Hm.
      destruct (match last (markers_of_points geodesic (p0 :: pre) interval_km)
                with None => _ | Some _ => _ end).
      - apply elem_of_app in Hm. destruct Hm as [Hm | Hm]; [left; exact Hm |].
        right. apply list_elem_of_singleton in Hm. exact Hm.
      - left. exact Hm. }
    destruct Hcases as [Hold | ->].
    + destruct (IH Hold) as (k & q & Hk & Hpos & Hdist).
      exists k, q. split; [apply lookup_app_l_Some, Hk |].
      split; [exact Hpos |].
      rewrite Hdist. f_equal. f_equal. f_equal.
      apply lookup_lt_Some in Hk.
      rewrite take_app_le by lia. reflexivity.
    + exists (length pre), p. split; [apply list_lookup_middle; reflexivity |].
      split; [reflexivity |].
      simpl snd. f_equal. f_equal. f_equal.
      rewrite take_ge by (rewrite length_app; simpl; lia). reflexivity.
Qed.

End MarkerPassMore.

(** X5. The marker positions are raw points of the track other than the
    first, in track order: the coordinate pairs of the markers form a
    subsequence of the coordinate pairs of the raw points after the
    first one. *)
Theorem marker_positions_are_later_points
    (geodesic : LatLon -> LatLon -> Q) (gpx : GPX) (interval_km : Q) :
  sublist (map fst (get_distance_markers geodesic gpx interval_km))
          (map latlon (tail (all_points gpx))).
Proof.
  unfold get_distance_markers, markers_of_points, marker_loop.
  destruct (all_points gpx) as [| p0 rest]; [constructor |].
  destruct (marker_fold_positions geodesic interval_km rest
              {| markers := []; total_distance := 0; last_point := p0 |})
    as (extra & -> & Hsub).
  exact Hsub.
Qed.

(** X6. Every marker records the length of the track from its start to
    the raw point the marker sits on (consecutive geodesic distances
    added up), rounded to the nearest integer, hence at most half a
    kilometre away from it. *)
Theorem marker_records_track_length
    (geodesic : LatLon -> LatLon -> Q) (gpx : GPX) (interval_km : Q)
    (m : DistanceMarker) :
  m ∈ get_distance_markers geodesic gpx interval_km ->
  exists k p,
    all_points gpx !! S k = Some p
    /\ fst m = latlon p
    /\ snd m = py_round (path_km geodesic (take (S (S k)) (all_points gpx)))
    /\ inject_Z (snd m) - (1 # 2)
       <= path_km geodesic (take (S (S k)) (all_points gpx))
       <= inject_Z (snd m) + (1 # 2).
Proof.
  unfold get_distance_markers. intros Hm.
  destruct (all_points gpx) as [| p0 rest].
  - exfalso. exact (not_elem_of_nil _ Hm).
  - destruct (markers_of_points_recorded geodesic interval_km p0 rest m Hm)
      as (k & p & Hk & Hpos & Hdist).
    exists k, p. split; [exact Hk |]. split; [exact Hpos |].
    change (take (S (S k)) (p0 :: rest)) with (p0 :: take (S k) rest).
    split; [exact Hdist |].
    rewrite Hdist. apply py_round_near.
Qed.

Lemma marker_records_track_length_witness :
  exists k p,
    all_points track_10_20 !! S k = Some p
    /\ fst (0, 0.1815, 20%Z) = latlon p
    /\ snd (0, 0.1815, 20%Z)
       = py_round (path_km equator_km (take (S (S k)) (all_points track_10_20)))
    /\ inject_Z (snd (0, 0.1815, 20%Z)) - (1 # 2)
       <= path_km equator_km (take (S (S k)) (all_points track_10_20))
       <= inject_Z (snd (0, 0.1815, 20%Z)) + (1 # 2).
Proof.
  apply (marker_records_track_length equator_km track_10_20 10
           (0, 0.1815, 20%Z)).
  vm_compute. apply list_elem_of_In. right. left. reflexivity.
Defined.

Section MarkerSpacing.

Variable geodesic : LatLon -> LatLon -> Q.
Variable interval_km : Q.
Variable k : Z.
Hypothesis k_nonneg : (0 <= k)%Z.
Hypothesis interval_at_least_k : inject_Z k <= interval_km.

Lemma marker_step_spacing (st : marker_state) (p : GPXTrackPoint) :
  StronglySorted (fun a b => (a + k <= b)%Z) (map snd (markers st)) ->
  StronglySorted (fun a b => (a + k <= b)%Z)
    (map snd (markers (marker_step geodesic interval_km st p))).
Proof.
  intros Hs. unfold marker_step. simpl.
  set (total := total_distance st + _).
  destruct (last (markers st)) as [m |] eqn:Hlast.
  - destruct (py_ge (total - inject_Z (snd m)) interval_km) eqn:Hge;
      [| exact Hs].
    apply py_ge_spec in Hge.
    apply last_Some in Hlast. destruct Hlast as [ms' Hms].
    rewrite map_app. apply StronglySorted_snoc; [exact Hs |].
    assert (Hnext : (snd m + k <= py_round total)%Z).
    { rewrite <- (py_round_inject_Z (snd m + k)). apply py_round_le.
      rewrite inject_Z_plus. lra. }
    rewrite Hms in Hs |- *. rewrite map_app in Hs |- *. simpl in Hs |- *.
    pose proof (StronglySorted_snoc_inv _ _ _ Hs) as Hbelow.
    apply Forall_app. split.
    + eapply Forall_impl; [exact Hbelow |]. simpl. intros d Hd. lia.
    + repeat constructor. simpl. lia.
  - apply last_None in Hlast. rewrite Hlast. simpl. repeat constructor.
Qed.

Lemma marker_fold_spacing (rest : list GPXTrackPoint) (st : marker_state) :
  StronglySorted (fun a b => (a + k <= b)%Z) (map snd (markers st)) ->
  StronglySorted (fun a b => (a + k <= b)%Z)
    (map snd (markers (fold_left (marker_step geodesic interval_km) rest st))).
Proof.
  revert st. induction rest as [| p rest IH]; intros st Hst; simpl.
  - exact Hst.
  - apply IH, marker_step_spacing, Hst.
Qed.

End MarkerSpacing.

(** X7. When the interval is at least a whole number [k] of kilometres,
    [k] not negative, the distance recorded by every marker exceeds the
    distance recorded by each earlier marker by at least [k]: with the
    program's interval of 10 the labels are at least 10 apart. *)
Theorem marker_distances_spacing
    (geodesic : LatLon -> LatLon -> Q) (gpx : GPX) (interval_km : Q) (k : Z) :
  (0 <= k)%Z ->
  inject_Z k <= interval_km ->
  StronglySorted (fun a b => (a + k <= b)%Z)
    (map snd (get_distance_markers geodesic gpx interval_km)).
Proof.
  intros Hk Hi.
  unfold get_distance_markers, markers_of_points.
  destruct (all_points gpx) as [| p0 rest]; [constructor |].
  apply (marker_fold_spacing geodesic interval_km k Hk Hi). constructor.
Qed.

Lemma marker_distances_spacing_witness :
  StronglySorted (fun a b => (a + 10 <= b)%Z)
    (map snd (get_distance_markers equator_km track_10_20
                DISTANCE_MARKERS_EACH)).
Proof.
  apply (marker_distances_spacing equator_km track_10_20
           DISTANCE_MARKERS_EACH 10).
  - lia.
  - vm_compute. discriminate.
Defined.

(** ** Deduplicator, continued *)

Lemma unique_lockers_inv (all_lockers : list Locker) :
  NoDup (map name (unique_lockers all_lockers))
  /\ sublist (unique_lockers all_lockers) all_lockers
  /\ (forall n,
        first_with_name n (unique_lockers all_lockers)
        = first_with_name n all_lockers).
Proof.
  unfold unique_lockers.
  apply (unique_fold_inv all_lockers [] ∅ []).
  - intros n. simpl. split; intros H.
    + exfalso. exact (not_elem_of_empty (C:=gset string) n H).
    + exfalso. exact (not_elem_of_nil n H).
  - constructor.
  - constructor.
  - reflexivity.
Qed.

Lemma unique_fold_distinct (l : list Locker) (seen : gset string)
    (acc : list Locker) :
  (forall x, x ∈ l -> name x ∉ seen) ->
  NoDup (map name l) ->
  snd (fold_left unique_step l (seen, acc)) = acc ++ l.
Proof.
  revert seen acc. induction l as [| x l IH]; intros seen acc Hfresh Hnd.
  - simpl. symmetry. apply app_nil_r.
  - simpl fold_left. simpl in Hnd. apply NoDup_cons in Hnd.
    destruct Hnd as [Hx Hnd].
    destruct (decide (name x ∈ seen)) as [Hin | _].
    + exfalso. apply (Hfresh x); [left | exact Hin].
    + rewrite IH; [rewrite <- app_assoc; reflexivity | | exact Hnd].
      intros y Hy Hseen. apply elem_of_union in Hseen.
      destruct Hseen as [Hseen | Hseen].
      * apply elem_of_singleton in Hseen. apply Hx. rewrite <- Hseen.
        apply list_elem_of_fmap_2. exact Hy.
      * apply (Hfresh y); [right; exact Hy | exact Hseen].
Qed.

Lemma unique_fold_appends (l : list Locker) (seen : gset string)
    (acc : list Locker) :
  acc `prefix_of` snd (fold_left unique_step l (seen, acc)).
Proof.
  revert seen acc. induction l as [| x l IH]; intros seen acc; simpl.
  - reflexivity.
  - destruct (decide (name x ∈ seen)); [apply IH |].
    etransitivity; [| apply IH]. apply prefix_app_r. reflexivity.
Qed.

(** X8. A record list whose names are all different passes through
    deduplication unchanged. *)
Theorem unique_lockers_distinct_names (all_lockers : list Locker) :
  NoDup (map name all_lockers) ->
  unique_lockers all_lockers = all_lockers.
Proof.
  intros Hnd. unfold unique_lockers.
  rewrite unique_fold_distinct; [reflexivity | | exact Hnd].
  intros x _ Hin. exact (not_elem_of_empty (C:=gset string) _ Hin).
Qed.

Lemma unique_lockers_distinct_names_witness :
  unique_lockers [locker_A1; locker_B] = [locker_A1; locker_B].
Proof.
  apply (unique_lockers_distinct_names [locker_A1; locker_B]).
  simpl. apply NoDup_cons. split.
  - intros H. apply list_elem_of_singleton in H. discriminate H.
  - apply NoDup_singleton.
Defined.

(** X9. Deduplicating twice gives the same list as deduplicating
    once. *)
Theorem unique_lockers_idempotent (all_lockers : list Locker) :
  unique_lockers (unique_lockers all_lockers) = unique_lockers all_lockers.
Proof.
  destruct (unique_lockers_inv all_lockers) as (Hnd & _ & _).
  unfold unique_lockers at 1.
  rewrite unique_fold_distinct; [reflexivity | | exact Hnd].
  intros x _ Hin. exact (not_elem_of_empty (C:=gset string) _ Hin).
Qed.

(** X10. Deduplication loses no name: a name occurs in the output
    exactly when it occurs in the input. *)
Theorem unique_lockers_same_names (all_lockers : list Locker) (n : string) :
  n ∈ map name (unique_lockers all_lockers) <-> n ∈ map name all_lockers.
Proof.
  destruct (unique_lockers_inv all_lockers) as (_ & _ & Hfirst).
  pose proof (first_with_name_None n (unique_lockers all_lockers)) as Hu.
  pose proof (first_with_name_None n all_lockers) as Ha.
  rewrite Hfirst in Hu.
  destruct (decide (n ∈ map name (unique_lockers all_lockers))) as [H1 | H1];
    destruct (decide (n ∈ map name all_lockers)) as [H2 | H2]; try tauto.
Qed.

(** X11. Records that arrive later never displace what was kept: the
    deduplicated list of the records fetched so far is a prefix of the
    deduplicated list after more records have been appended. *)
Theorem unique_lockers_grows (fetched more : list Locker) :
  unique_lockers fetched `prefix_of` unique_lockers (fetched ++ more).
Proof.
  unfold unique_lockers. rewrite fold_left_app.
  destruct (fold_left unique_step fetched (∅, [])) as [seen acc].
  apply unique_fold_appends.
Qed.

(** ** Locker fetcher, continued *)

Section FetchSuccess.

Variable http : Request -> Response.
Variable token : string.

Lemma fetch_point_ok (total : nat) (indexed : nat * LatLon)
    (all_lockers : list Locker) (out : list string) :
  query_ok (response_at http token (snd indexed)) ->
  exists out',
    fetch_point http token total all_lockers indexed out
    = (out', Returned (all_lockers
                       ++ items_of (response_at http token (snd indexed)))).
Proof.
  destruct indexed as [index [lat lon]]. unfold response_at. simpl fst. simpl snd.
  intros (text & entries & Hok).
  cbv [fetch_point get_nearby_parcel_lockers bind print ret get_items].
  rewrite Hok. simpl. eexists. reflexivity.
Qed.

Lemma fetch_loop_ok (total : nat) (todo : list (nat * LatLon))
    (all_lockers : list Locker) (out : list string) :
  Forall (fun indexed => query_ok (response_at http token (snd indexed))) todo ->
  exists out',
    fetch_loop http token total all_lockers todo out
    = (out', Returned
               (all_lockers
                ++ concat (map (fun indexed =>
                                  items_of (response_at http token (snd indexed)))
                               todo))).
Proof.
  revert all_lockers out.
  induction todo as [| indexed todo IH]; intros all_lockers out Hall.
  - simpl. exists out. rewrite app_nil_r. reflexivity.
  - apply Forall_cons in Hall. destruct Hall as [Hp Hall].
    simpl fetch_loop. unfold bind at 1.
    destruct (fetch_point_ok total indexed all_lockers out Hp) as [out1 ->].
    destruct (IH (all_lockers ++ items_of (response_at http token (snd indexed)))
                out1 Hall) as [out2 ->].
    exists out2. simpl. rewrite <- app_assoc. reflexivity.
Qed.

Lemma imap_pair_snd (route : list LatLon) (f : nat -> nat) (g : LatLon -> list Locker) :
  concat (map (fun indexed => g (snd indexed)) (imap (fun i p => (f i, p)) route))
  = concat (map g route).
Proof.
  revert f. induction route as [| p route IH]; intros f; [reflexivity |].
  simpl. f_equal. apply (IH (f ∘ S)).
Qed.

Lemma imap_pair_Forall (P : LatLon -> Prop) (route : list LatLon)
    (f : nat -> nat) :
  Forall P route ->
  Forall (fun indexed => P (snd indexed)) (imap (fun i p => (f i, p)) route).
Proof.
  intros Hall. revert f. induction Hall as [| p route Hp Hall IH]; intros f.
  - constructor.
  - simpl. constructor; [exact Hp | apply (IH (f ∘ S))].
Qed.

Lemma fetch_all_ok (route_points : list LatLon) (out : list string) :
  Forall (fun p => query_ok (response_at http token p)) route_points ->
  exists out',
    fetch_all http token route_points out
    = (out', Returned (concat (map (fun p => items_of (response_at http token p))
                                   route_points))).
Proof.
  intros Hall. unfold fetch_all.
  pose proof (imap_pair_Forall _ route_points id Hall) as Htodo.
  destruct (fetch_loop_ok (length route_points) (imap pair route_points) [] out
              Htodo) as [out' ->].
  exists out'. simpl.
  pose proof (imap_pair_snd route_points id
                (fun p => items_of (response_at http token p))) as E.
  simpl in E. f_equal. f_equal. exact E.
Qed.

End FetchSuccess.

(** X13. When every query of the route is answered with status 200 and
    a JSON object, the fetch loop does not raise and the accumulated
    list is the concatenation, in route order, of the [items] of the
    answers; an answer without [items] adds nothing. *)
Theorem fetch_all_collects (http : Request -> Response) (token : string)
    (route_points : list LatLon) (out : list string) :
  Forall (fun p => query_ok (response_at http token p)) route_points ->
  snd (fetch_all http token route_points out)
  = Returned (concat (map (fun p => items_of (response_at http token p))
                          route_points)).
Proof.
  intros Hall.
  destruct (fetch_all_ok http token route_points out Hall) as [out' ->].
  reflexivity.
Qed.

Lemma fetch_all_collects_witness :
  snd (fetch_all http_ok "secret" [(0, 0); (0, 5)] [])
  = Returned (concat (map (fun p => items_of (response_at http_ok "secret" p))
                          [(0, 0); (0, 5)])).
Proof.
  apply (fetch_all_collects http_ok "secret" [(0, 0); (0, 5)] []).
  repeat constructor; exists "", (<["items" := [locker_A1; locker_B]]> ∅);
    reflexivity.
Defined.

Lemma main_failed_query_raises_witness :
  snd (run (main equator_km http_first_only "secret" track_556km))
  = Raised AttributeError.
Proof.
  apply (main_failed_query_raises equator_km http_first_only "secret"
           track_556km 0 5).
  - vm_compute. apply list_elem_of_In. right. left. reflexivity.
  - vm_compute. discriminate.
Defined.

(** ** Map renderer *)

(** X16. The renderer raises [IndexError] exactly on an empty route and
    prints nothing. On a route of n > 0 points it returns a map centred
    on the route point of index n // 2, whose children are the line
    through the whole route, then one pin per locker in order, then one
    label per distance marker in order. *)
Theorem create_map_outcome (route_points : list LatLon)
    (lockers : list Locker) (distance_markers : list DistanceMarker)
    (out : list string) :
  (route_points = [] ->
   create_map_with_lockers route_points lockers distance_markers out
   = (out, Raised IndexError))
  /\ (route_points <> [] ->
      exists center,
        route_points !! (length route_points / 2)%nat = Some center
        /\ center ∈ route_points
        /\ create_map_with_lockers route_points lockers distance_markers out
           = (out, Returned
                     {| map_location := center;
                        zoom_start := 10;
                        children :=
                          PolyLine route_points "blue" 3
                          :: map locker_marker lockers
                          ++ map distance_label distance_markers |})).
Proof.
  split.
  - intros ->. reflexivity.
  - intros Hne.
    assert (Hlt : (length route_points / 2 < length route_points)%nat).
    { apply Nat.div_lt; [| lia]. destruct route_points; [congruence | simpl; lia]. }
    apply lookup_lt_is_Some_2 in Hlt. destruct Hlt as [center Hc].
    exists center. split; [exact Hc |].
    split; [apply list_elem_of_lookup; eauto |].
    unfold create_map_with_lockers. rewrite Hc. reflexivity.
Qed.

(** ** The whole run *)

(** X17. On a track with at least one point, when every query of the
    route is answered with status 200 and a JSON object, [main] returns
    a map: centred on the middle point of the coarse route, with the
    line through the route, one pin for each distinct locker name among
    the fetched records (first occurrence, in fetch order) and one
    label per distance marker of the same track. *)
Theorem main_success
    (geodesic : LatLon -> LatLon -> Q) (http : Request -> Response)
    (token : string) (gpx : GPX) :
  let route_points := parse_gpx_points_every_n_km geodesic gpx TRAIL_CHUNK in
  all_points gpx <> [] ->
  Forall (fun p => query_ok (response_at http token p)) route_points ->
  exists center,
    route_points !! (length route_points / 2)%nat = Some center
    /\ snd (run (main geodesic http token gpx))
       = Returned
           {| map_location := center;
              zoom_start := 10;
              children :=
                PolyLine route_points "blue" 3
                :: map locker_marker
                     (unique_lockers
                        (concat (map (fun p => items_of (response_at http token p))
                                     route_points)))
                ++ map distance_label
                     (get_distance_markers geodesic gpx DISTANCE_MARKERS_EACH) |}.
Proof.
  cbv zeta. intros Hpts Hall.
  set (route_points := parse_gpx_points_every_n_km geodesic gpx TRAIL_CHUNK) in *.
  assert (Hne : route_points <> []).
  { subst route_points. unfold parse_gpx_points_every_n_km.
    destruct (all_points gpx) as [| p0 rest]; [congruence |].
    destruct (sample_of_points_cons geodesic TRAIL_CHUNK p0 rest)
      as (extra & -> & _). discriminate. }
  assert (Hlt : (length route_points / 2 < length route_points)%nat).
  { apply Nat.div_lt; [| lia]. destruct route_points; [congruence | simpl; lia]. }
  apply lookup_lt_is_Some_2 in Hlt. destruct Hlt as [center Hc].
  exists center. split; [exact Hc |].
  unfold run, main. cbv [bind print]. fold route_points.
  match goal with
  | |- context [fetch_all http token route_points ?out] =>
      destruct (fetch_all_ok http token route_points out Hall) as [out' ->]
  end.
  unfold create_map_with_lockers. rewrite Hc. reflexivity.
Qed.

Lemma main_success_witness :
  exists center,
    parse_gpx_points_every_n_km equator_km track_556km TRAIL_CHUNK
      !! (length (parse_gpx_points_every_n_km equator_km track_556km TRAIL_CHUNK)
          / 2)%nat
    = Some center
    /\ snd (run (main equator_km http_ok "secret" track_556km))
       = Returned
           {| map_location := center;
              zoom_start := 10;
              children :=
                PolyLine
                  (parse_gpx_points_every_n_km equator_km track_556km TRAIL_CHUNK)
                  "blue" 3
                :: map locker_marker
                     (unique_lockers
                        (concat
                           (map (fun p => items_of (response_at http_ok "secret" p))
                              (parse_gpx_points_every_n_km equator_km track_556km
                                 TRAIL_CHUNK))))
                ++ map distance_label
                     (get_distance_markers equator_km track_556km
                        DISTANCE_MARKERS_EACH) |}.
Proof.
  apply (main_success equator_km http_ok "secret" track_556km).
  - vm_compute. discriminate.
  - assert (E : parse_gpx_points_every_n_km equator_km track_556km TRAIL_CHUNK
                = [(0, 0); (0, 5)]) by (vm_compute; reflexivity).
    rewrite E.
    repeat constructor; exists "", (<["items" := [locker_A1; locker_B]]> ∅);
      reflexivity.
Defined.

(** ** Token file *)

Lemma py_lstrip_split (s : py_str) :
  exists lead,
    s = lead ++ py_lstrip s
    /\ Forall (fun c => py_isspace c = true) lead
    /\ (forall c, head (py_lstrip s) = Some c -> py_isspace c = false).
Proof.
  induction s as [| c s (lead & Hs & Hlead & Hhead)].
  - exists []. repeat split; [constructor | discriminate].
  - simpl. destruct (py_isspace c) eqn:E.
    + exists (c :: lead). split; [simpl; f_equal; exact Hs |].
      split; [constructor; assumption | exact Hhead].
    + exists []. split; [reflexivity |]. split; [constructor |].
      intros c' [= <-]. exact E.
Qed.

Lemma py_lstrip_spaces (lead s : py_str) :
  Forall (fun c => py_isspace c = true) lead ->
  py_lstrip (lead ++ s) = py_lstrip s.
Proof.
  induction 1 as [| c lead Hc _ IH]; [reflexivity |].
  simpl. rewrite Hc. exact IH.
Qed.

Lemma py_lstrip_clean (s : py_str) :
  (forall c, head s = Some c -> py_isspace c = false) -> py_lstrip s = s.
Proof.
  destruct s as [| c s]; [reflexivity |].
  intros H. simpl. rewrite (H c eq_refl). reflexivity.
Qed.

Lemma head_rev_last (s : py_str) : head (rev s) = last s.
Proof.
  induction s as [| c s _] using rev_ind; [reflexivity |].
  rewrite rev_app_distr, last_snoc. reflexivity.
Qed.

Lemma py_rstrip_split (s : py_str) :
  exists trail,
    s = py_rstrip s ++ trail
    /\ Forall (fun c => py_isspace c = true) trail
    /\ (forall c, last (py_rstrip s) = Some c -> py_isspace c = false).
Proof.
  unfold py_rstrip.
  destruct (py_lstrip_split (rev s)) as (lead & Hs & Hlead & Hhead).
  exists (rev lead). split; [| split].
  - rewrite <- rev_app_distr, <- Hs, rev_involutive. reflexivity.
  - apply Forall_forall. intros c Hc. apply list_elem_of_In, in_rev in Hc.
    apply (proj1 (Forall_forall _ _) Hlead). apply list_elem_of_In. exact Hc.
  - intros c Hc. rewrite <- head_rev_last, rev_involutive in Hc.
    apply Hhead, Hc.
Qed.

(** X18. The token is the text of the file without its leading and
    trailing white space: the text is some white space, the token, some
    white space, and the token neither starts nor ends with a white
    space character. *)
Theorem load_token_strips (content : py_str) :
  exists lead trail,
    content = lead ++ load_token_from_file content ++ trail
    /\ Forall (fun c => py_isspace c = true) lead
    /\ Forall (fun c => py_isspace c = true) trail
    /\ (forall c, head (load_token_from_file content) = Some c ->
                  py_isspace c = false)
    /\ (forall c, last (load_token_from_file content) = Some c ->
                  py_isspace c = false).
Proof.
  unfold load_token_from_file, py_strip.
  destruct (py_lstrip_split content) as (lead & Hc & Hlead & Hhead).
  destruct (py_rstrip_split (py_lstrip content)) as (trail & Hm & Htrail & Hlast).
  exists lead, trail.
  split; [rewrite <- Hm; exact Hc |].
  split; [exact Hlead |]. split; [exact Htrail |]. split; [| exact Hlast].
  intros c Hfirst. apply Hhead. rewrite Hm.
  destruct (py_rstrip (py_lstrip content)); [discriminate Hfirst | exact Hfirst].
Qed.

(** X19. A token that neither starts nor ends with white space is read
    back unchanged from a file that holds it between any white space,
    such as a final newline. *)
Theorem load_token_round_trip (lead token trail : py_str) :
  Forall (fun c => py_isspace c = true) lead ->
  Forall (fun c => py_isspace c = true) trail ->
  (forall c, head token = Some c -> py_isspace c = false) ->
  (forall c, last token = Some c -> py_isspace c = false) ->
  load_token_from_file (lead ++ token ++ trail) = token.
Proof.
  intros Hlead Htrail Hhead Hlast.
  unfold load_token_from_file, py_strip.
  rewrite (py_lstrip_spaces lead _ Hlead).
  destruct token as [| c token].
  - simpl. rewrite <- (app_nil_r trail), (py_lstrip_spaces trail [] Htrail).
    reflexivity.
  - rewrite py_lstrip_clean by (intros c' [= <-]; apply Hhead; reflexivity).
    unfold py_rstrip. rewrite rev_app_distr.
    rewrite py_lstrip_spaces.
    + rewrite py_lstrip_clean; [apply rev_involutive |].
      intros c' Hc'. rewrite head_rev_last in Hc'. apply Hlast, Hc'.
    + apply Forall_forall. intros c' Hc'. apply list_elem_of_In, in_rev in Hc'.
      apply (proj1 (Forall_forall _ _) Htrail). apply list_elem_of_In. exact Hc'.
Qed.

Lemma load_token_round_trip_witness :
  load_token_from_file token_file_text = [97; 98; 99]%N.
Proof.
  apply (load_token_round_trip [32%N] [97; 98; 99]%N [10%N]).
  - repeat constructor.
  - repeat constructor.
  - intros c [= <-]. reflexivity.
  - intros c [= <-]. reflexivity.
Defined.
